(** * BioNER fine-tuning notebook: label alignment, metrics, training loop

    A shallow embedding of the code cells of [BioNER_Finetuning.ipynb]:
    - [lemmatize_tokenize_and_align_labels] (the label aligner),
    - [evaluate_token_classification] (confusion matrix and derived metrics),
    - the parameter-freezing cell and [train_loop_per_worker].

    Python strings are modelled as byte strings ([string]), Python ints as
    [Z], list lengths as [nat].  A raised exception is the left summand of
    a sum type.  The pretrained tokenizer, the lemmatizer and the model are
    external services and enter as section variables. *)

From Stdlib Require Import ZArith QArith Lia Ascii String List.
From Stdlib Require Import Floats.PrimFloat Numbers.Cyclic.Int63.Uint63.
From stdpp Require Import base list strings pretty gmap.

Local Open Scope Z_scope.

(** ** Exceptions raised by the notebook's code *)

Inductive error : Type :=
  | ValueError (msg : string)
  | KeyError (key : string)
  | IndexError
  | ZeroDivisionError.

(** Sequencing of computations that may raise. *)
Definition bind_err {A B : Type} (m : error + A) (k : A -> error + B) : error + B :=
  match m with
  | inl e => inl e
  | inr a => k a
  end.

Notation "x <-! m ; k" := (bind_err m (fun x => k))
  (at level 100, m at next level, right associativity,
   format "'[v' x  <-!  m ; '/' k ']'").

(** ** Python string builtins used by the aligner *)

Module PyStr.

(** Whitespace recognised by [str.split()] in the ASCII range. *)
Definition is_space (c : ascii) : bool :=
  let n := nat_of_ascii c in
  ((9 <=? n)%nat && (n <=? 13)%nat) || ((28 <=? n)%nat && (n <=? 32)%nat).

(** [str.lower()] on the ASCII range; other bytes are left alone. *)
Definition lower_char (c : ascii) : ascii :=
  let n := nat_of_ascii c in
  if ((65 <=? n)%nat && (n <=? 90)%nat)%bool then ascii_of_nat (n + 32) else c.

Fixpoint lower (s : string) : string :=
  match s with
  | EmptyString => EmptyString
  | String c s' => String (lower_char c) (lower s')
  end.

(** [str.split()] with no argument: maximal runs of non-whitespace. *)
Fixpoint split_go (cur : string) (s : string) : list string :=
  match s with
  | EmptyString => if String.eqb cur "" then [] else [cur]
  | String c s' =>
      if is_space c
      then (if String.eqb cur "" then split_go "" s' else cur :: split_go "" s')
      else split_go (cur +:+ String c "") s'
  end.

Definition split (s : string) : list string := split_go "" s.

(** [" ".join(ws)], used to build sentences the way [_read_tsv_data] does. *)
Fixpoint join (ws : list string) : string :=
  match ws with
  | [] => ""
  | [w] => w
  | w :: ws' => w +:+ " " +:+ join ws'
  end.

End PyStr.

(** ** LabelAligner: [lemmatize_tokenize_and_align_labels] *)

(** [label_to_int = {'B': 0, 'I': 1, 'O': 2}] *)
Definition label_to_int : gmap string Z :=
  <["B" := 0]> (<["I" := 1]> (<["O" := 2]> ∅)).

(** The labels of the BIO scheme, and the ids the table gives them. *)
Definition valid_label (l : string) : Prop := l = "B" \/ l = "I" \/ l = "O".

#[global] Instance valid_label_dec (l : string) : Decision (valid_label l).
Proof. unfold valid_label. apply _. Defined.

Definition label_id_ok (z : Z) : Prop := z = 0 \/ z = 1 \/ z = 2.

(** The id appended for the subwords after the first, given the word's
    label [l] and its id [l0]: the id of [remaining_label]. *)
Definition continuation_id (l : string) (l0 : Z) : Z :=
  if String.eqb l "B" then 1 else l0.

(** [max_length = 512] *)
Definition max_length : Z := 512.

(** One entry of [tokenized_inputs]. *)
Record example : Type := Example {
  input_ids : list Z;
  attention_mask : list Z;
  labels : list Z
}.

Inductive flow : Type := Continue | Break.

(** [f"Mismatch: {len(label_list)} labels but {len(words)} words"] *)
Definition mismatch_message (n_labels n_words : nat) : string :=
  "Mismatch: " +:+ pretty n_labels +:+ " labels but " +:+ pretty n_words +:+ " words".

Section LabelAligner.

(** [lemmatizer.lemmatize], [tokenizer.tokenize], the per-token lookup of
    [tokenizer.convert_tokens_to_ids], and the special token ids. *)
Variable lemmatize : string -> string.
Variable tokenize : string -> list string.
Variable convert_token_to_id : string -> Z.
Variables cls_token_id sep_token_id pad_token_id : Z.

Definition convert_tokens_to_ids (tokens : list string) : list Z :=
  map convert_token_to_id tokens.

(** The ids one word contributes, and the raw (untruncated) subword ids of
    a word sequence. *)
Definition word_ids (word : string) : list Z :=
  convert_tokens_to_ids (tokenize (lemmatize word)).

Definition raw_ids (words : list string) : list Z :=
  flat_map word_ids words.

(** The pair [(input_ids, aligned_labels)] threaded through the word loop. *)
Definition loop_state : Type := (list Z * list Z)%type.

(** [for _ in range(n): aligned_labels.append(label_to_int[remaining_label])] *)
Fixpoint append_remaining (n : nat) (remaining_label : string)
    (aligned_labels : list Z) : error + list Z :=
  match n with
  | O => inr aligned_labels
  | S n' =>
      match label_to_int !! remaining_label with
      | None => inl (KeyError remaining_label)
      | Some r => append_remaining n' remaining_label (aligned_labels ++ [r])
      end
  end.

(** Body of [for word, label in zip(words, label_list)]. *)
Definition loop_body (st : loop_state) (word label : string)
    : error + (flow * loop_state) :=
  let '(input_ids, aligned_labels) := st in
  let lemmatized_word := lemmatize word in
  let word_tokens := tokenize lemmatized_word in
  match word_tokens with
  | [] => inr (Continue, st)
  | _ :: _ =>
      let word_ids := convert_tokens_to_ids word_tokens in
      let input_ids := input_ids ++ word_ids in
      match label_to_int !! label with
      | None => inl (KeyError label)
      | Some l0 =>
          let aligned_labels := aligned_labels ++ [l0] in
          if Z.of_nat (length input_ids) >? max_length - 2
          then inr (Break, (input_ids, aligned_labels))
          else if Z.of_nat (length word_tokens) >? 1
          then
            let remaining_label := if String.eqb label "B" then "I" else label in
            match append_remaining (length word_tokens - 1) remaining_label
                    aligned_labels with
            | inl e => inl e
            | inr aligned_labels => inr (Continue, (input_ids, aligned_labels))
            end
          else inr (Continue, (input_ids, aligned_labels))
      end
  end.

Fixpoint align_loop (st : loop_state) (pairs : list (string * string))
    : error + loop_state :=
  match pairs with
  | [] => inr st
  | (word, label) :: rest =>
      match loop_body st word label with
      | inl e => inl e
      | inr (Break, st') => inr st'
      | inr (Continue, st') => align_loop st' rest
      end
  end.

(** Truncation, marker insertion and padding (the code after the loop). *)
Definition finalize (st : loop_state) : example :=
  let '(input_ids, aligned_labels) := st in
  let '(input_ids, aligned_labels) :=
    if Z.of_nat (length input_ids) >? max_length - 2
    then (take (Z.to_nat (max_length - 2)) input_ids,
          take (Z.to_nat (max_length - 2)) aligned_labels)
    else (input_ids, aligned_labels) in
  let final_input_ids := [cls_token_id] ++ input_ids ++ [sep_token_id] in
  let final_labels := [-100] ++ aligned_labels ++ [-100] in
  let attention_mask := replicate (length final_input_ids) 1 in
  let padding_length := max_length - Z.of_nat (length final_input_ids) in
  if padding_length >? 0
  then Example (final_input_ids ++ replicate (Z.to_nat padding_length) pad_token_id)
               (attention_mask ++ replicate (Z.to_nat padding_length) 0)
               (final_labels ++ replicate (Z.to_nat padding_length) (-100))
  else Example final_input_ids attention_mask final_labels.

(** One [(label_str, sentence)] record: the body of the [enumerate] loop. *)
Definition align_record (label_str sentence : string) : error + example :=
  let label_list := PyStr.split label_str in
  let words := PyStr.split (PyStr.lower sentence) in
  if negb (length label_list =? length words)%nat
  then inl (ValueError (mismatch_message (length label_list) (length words)))
  else
    match align_loop ([], []) (zip words label_list) with
    | inl e => inl e
    | inr st => inr (finalize st)
    end.

(** [for i, (label_str, sentence) in enumerate(parsed_file)]; the index
    [i] is bound by the source but never read. *)
Fixpoint align_file (i : nat) (parsed_file : list (string * string))
    (tokenized_inputs : list example) : error + list example :=
  match parsed_file with
  | [] => inr tokenized_inputs
  | (label_str, sentence) :: rest =>
      match align_record label_str sentence with
      | inl e => inl e
      | inr ex => align_file (S i) rest (tokenized_inputs ++ [ex])
      end
  end.

Fixpoint align_files (parsed_files : list (list (string * string)))
    (tokenized_inputs : list example) : error + list example :=
  match parsed_files with
  | [] => inr tokenized_inputs
  | parsed_file :: rest =>
      match align_file 0 parsed_file tokenized_inputs with
      | inl e => inl e
      | inr tokenized_inputs => align_files rest tokenized_inputs
      end
  end.

(** A record the aligner turns into an example. *)
Definition aligns (rec : string * string) : Prop :=
  exists ex, align_record rec.1 rec.2 = inr ex.

(** [batch['parsed_file']] in, [{"tokenized_inputs": ...}] out. *)
Definition lemmatize_tokenize_and_align_labels
    (parsed_files : list (list (string * string))) : error + list example :=
  align_files parsed_files [].

End LabelAligner.

(** ** A concrete tokenizer for evaluating the aligner

    A WordPiece-style tokenizer whose vocabulary is the single characters:
    the first piece of a word is its first character, every later piece is
    the character prefixed with [##].  The lemmatizer is the identity, a
    token's id is its character code, and the special ids are those of the
    BERT vocabularies ([CLS] = 101, [SEP] = 102, [PAD] = 0). *)
Module Toy.

Fixpoint pieces (first : bool) (s : string) : list string :=
  match s with
  | EmptyString => []
  | String c s' =>
      (if first then String c "" else "##" +:+ String c "") :: pieces false s'
  end.

Definition tokenize (w : string) : list string := pieces true w.

Definition lemmatize (w : string) : string := w.

Definition convert_token_to_id (t : string) : Z :=
  match rev (list_ascii_of_string t) with
  | c :: _ => Z.of_nat (nat_of_ascii c)
  | [] => 100
  end.

Definition wids := word_ids lemmatize tokenize convert_token_to_id.
Definition raw := raw_ids lemmatize tokenize convert_token_to_id.
Definition body := loop_body lemmatize tokenize convert_token_to_id.
Definition loop := align_loop lemmatize tokenize convert_token_to_id.
Definition align := align_record lemmatize tokenize convert_token_to_id 101 102 0.
Definition align_batch :=
  lemmatize_tokenize_and_align_labels lemmatize tokenize convert_token_to_id 101 102 0.
Definition ok_record := aligns lemmatize tokenize convert_token_to_id 101 102 0.

(** [n] copies of the one-letter word [a], then the words [last]. *)
Definition sentence (n : nat) (last : list string) : string :=
  PyStr.join (replicate n "a" ++ last).

(** [n] copies of the label [O], then the labels [last]. *)
Definition tags (n : nat) (last : list string) : string :=
  PyStr.join (replicate n "O" ++ last).

End Toy.


(** ** MetricsAggregator: [evaluate_token_classification]

    The counts are Python ints; the quotients are Python floats, modelled
    by exact rationals.  A division whose divisor is zero raises. *)

Module Metrics.

(** [confusion]: a 3 x 3 tensor of counts, read at [(true, predicted)]. *)
Definition confusion : Type := Z -> Z -> Z.

(** [torch.zeros(3, 3, dtype=torch.long)] *)
Definition zeros : confusion := fun _ _ => 0.

(** A tensor given by its rows. *)
Definition of_rows (rows : list (list Z)) : confusion :=
  fun i j => nth (Z.to_nat j) (nth (Z.to_nat i) rows []) 0.

(** Index into a dimension of size 3: negative indices count from the
    end, anything else is out of range. *)
Definition tensor_index (i : Z) : option Z :=
  if (0 <=? i) && (i <? 3) then Some i
  else if (-3 <=? i) && (i <? 0) then Some (i + 3)
  else None.

(** [if not (true_label == -100 or pred_label == -100):
       confusion[true_label, pred_label] += 1] *)
Definition count_pair (cm : confusion) (true_label pred_label : Z)
    : error + confusion :=
  if negb ((true_label =? -100) || (pred_label =? -100))
  then
    match tensor_index true_label, tensor_index pred_label with
    | Some t, Some p =>
        inr (fun i j => if (i =? t) && (j =? p) then cm i j + 1 else cm i j)
    | _, _ => inl IndexError
    end
  else inr cm.

(** The loop over the masked [(true_label, pred_label)] pairs. *)
Fixpoint count_pairs (cm : confusion) (pairs : list (Z * Z)) : error + confusion :=
  match pairs with
  | [] => inr cm
  | (true_label, pred_label) :: rest =>
      cm' <-! count_pair cm true_label pred_label;
      count_pairs cm' rest
  end.

(** [confusion.sum()], [confusion.diag().sum()], [confusion[:, c].sum()],
    [confusion[c, :].sum()] *)
Definition row_sum (cm : confusion) (i : Z) : Z := cm i 0 + cm i 1 + cm i 2.
Definition col_sum (cm : confusion) (j : Z) : Z := cm 0 j + cm 1 j + cm 2 j.
Definition sum (cm : confusion) : Z := row_sum cm 0 + row_sum cm 1 + row_sum cm 2.
Definition diag_sum (cm : confusion) : Z := cm 0 0 + cm 1 1 + cm 2 2.

(** Python's [a / b]. *)
Definition true_div (a b : Q) : error + Q :=
  if Qeq_bool b 0 then inl ZeroDivisionError else inr (a / b)%Q.

(** [x > 0] on floats. *)
Definition Qpositive (x : Q) : bool := negb (Qle_bool x 0).

(** [accuracy = correct_predictions / total_samples if total_samples > 0 else 0] *)
Definition accuracy_of (cm : confusion) : error + Q :=
  let total_samples := sum cm in
  let correct_predictions := diag_sum cm in
  if total_samples >? 0
  then true_div (inject_Z correct_predictions) (inject_Z total_samples)
  else inr 0%Q.

Record class_metric : Type := ClassMetric {
  precision : Q;
  recall : Q;
  f1 : Q
}.

(** [true_positives], [false_positives] and [false_negatives] of a class. *)
Definition true_positives (cm : confusion) (class_idx : Z) : Z :=
  cm class_idx class_idx.
Definition false_positives (cm : confusion) (class_idx : Z) : Z :=
  col_sum cm class_idx - true_positives cm class_idx.
Definition false_negatives (cm : confusion) (class_idx : Z) : Z :=
  row_sum cm class_idx - true_positives cm class_idx.

(** Body of [for class_idx in range(3)]. *)
Definition class_metric_of (cm : confusion) (class_idx : Z) : error + class_metric :=
  let true_positives := true_positives cm class_idx in
  let false_positives := false_positives cm class_idx in
  let false_negatives := false_negatives cm class_idx in
  precision <-! (if true_positives + false_positives >? 0
                 then true_div (inject_Z true_positives)
                               (inject_Z (true_positives + false_positives))
                 else inr 0%Q);
  recall <-! (if true_positives + false_negatives >? 0
              then true_div (inject_Z true_positives)
                            (inject_Z (true_positives + false_negatives))
              else inr 0%Q);
  f1 <-! (if Qpositive (precision + recall)
          then true_div (2 * precision * recall) (precision + recall)
          else inr 0%Q);
  inr (ClassMetric precision recall f1).

(** [class_metrics], a dict keyed by the class index. *)
Fixpoint class_metrics_of (cm : confusion) (class_idxs : list Z)
    : error + list (Z * class_metric) :=
  match class_idxs with
  | [] => inr []
  | class_idx :: rest =>
      m <-! class_metric_of cm class_idx;
      ms <-! class_metrics_of cm rest;
      inr ((class_idx, m) :: ms)
  end.

Record results : Type := Results {
  class_metrics : list (Z * class_metric);
  accuracy : Q
}.

(** The derivation after the counting loop. *)
Definition derive (cm : confusion) : error + results :=
  accuracy <-! accuracy_of cm;
  class_metrics <-! class_metrics_of cm [0; 1; 2];
  inr (Results class_metrics accuracy).

(** [evaluate_token_classification], given the masked label/prediction
    pairs the model produced over the dataloader. *)
Definition evaluate_token_classification (pairs : list (Z * Z)) : error + results :=
  cm <-! count_pairs zeros pairs;
  derive cm.

(** Counts are never negative. *)
Definition nonneg (cm : confusion) : Prop := forall i j, 0 <= cm i j.

(** A pair the counting loop accepts: one side is the ignore value, or
    both index the matrix. *)
Definition countable_pair (tp : Z * Z) : Prop :=
  tp.1 = -100 \/ tp.2 = -100 \/ (-3 <= tp.1 < 3 /\ -3 <= tp.2 < 3).

End Metrics.

(** ** TrainingLoop: the freeze cell and [train_loop_per_worker]

    The model is its list of named parameters.  The forward pass, the
    AdamW update with its learning-rate schedule, the [DataLoader] and the
    predictions of the model are external and enter as section variables;
    the loss is a binary64 float. *)

Module Train.

(** [model.distilbert] (the base encoder) and [model.classifier] (the head). *)
Inductive component : Type := distilbert | classifier.

Definition component_eqb (a b : component) : bool :=
  match a, b with
  | distilbert, distilbert | classifier, classifier => true
  | _, _ => false
  end.

(** [train_config] and the configs sampled from it. *)
Record config : Type := Config {
  model_name : string;
  num_labels : Z;
  num_epochs : Z;
  batch_size : Z;
  learning_rate : float;
  checkpoint_dir : string;
  checkpoint_freq : Z
}.

(** What a worker hands to [ray.train.report] at the end of an epoch:
    [{"loss"}] alone, or loss, accuracies and a checkpoint. *)
Inductive report : Type :=
  | ReportLoss (loss : float)
  | ReportCheckpoint (loss : float) (val_accuracy train_accuracy : Q)
                     (checkpoint : string).

Definition has_checkpoint (r : report) : bool :=
  match r with
  | ReportLoss _ => false
  | ReportCheckpoint _ _ _ _ => true
  end.

Definition report_loss (r : report) : float :=
  match r with
  | ReportLoss loss => loss
  | ReportCheckpoint loss _ _ _ => loss
  end.

Definition report_checkpoint (r : report) : option string :=
  match r with
  | ReportLoss _ => None
  | ReportCheckpoint _ _ _ checkpoint => Some checkpoint
  end.

(** [os.path.join(config["checkpoint_dir"], f"epoch_{epoch + 1}")] *)
Definition checkpoint_path (dir : string) (epoch : nat) : string :=
  dir +:+ "/" +:+ "epoch_" +:+ pretty (epoch + 1)%nat.

(** [epoch_loss / len(train_dataloader)] *)
Definition average_loss (epoch_loss : float) (len : nat) : error + float :=
  match len with
  | O => inl ZeroDivisionError
  | S _ => inr (PrimFloat.div epoch_loss
                              (PrimFloat.of_uint63 (Uint63.of_Z (Z.of_nat len))))
  end.

(** [rank == 0 and (epoch % checkpoint_freq) == 0]: the modulo is only
    evaluated on rank 0, and raises on a zero frequency. *)
Definition checkpoint_due (rank : Z) (epoch : nat) (freq : Z) : error + bool :=
  if rank =? 0
  then if freq =? 0 then inl ZeroDivisionError
       else inr (Z.of_nat epoch mod freq =? 0)
  else inr false.

(** The shape every report of epoch [epoch] on rank [rank] has. *)
Definition report_ok (rank : Z) (cfg : config) (epoch : nat) (r : report) : Prop :=
  (has_checkpoint r = true <->
   rank = 0 /\ checkpoint_freq cfg <> 0 /\
   Z.of_nat epoch mod checkpoint_freq cfg = 0) /\
  (has_checkpoint r = false -> r = ReportLoss (report_loss r)) /\
  (has_checkpoint r = true ->
   report_checkpoint r = Some (checkpoint_path (checkpoint_dir cfg) epoch)).

Section Loop.

Variable tensor : Type.
Variable batch : Type.

(** A parameter of the model: [requires_grad] says whether backward
    computes a gradient for it. *)
Record param : Type := Param {
  pname : string;
  owner : component;
  requires_grad : bool;
  data : tensor
}.

Definition model : Type := list param.

(** The weights stored under a model name, for a head with [num_labels]
    outputs. *)
Variable pretrained_weights : string -> Z -> list (string * component * tensor).

(** [DataLoader(TokenizedDataset(examples), batch_size=..., shuffle=True)],
    as the list of batches one pass yields. *)
Variable DataLoader : list example -> Z -> error + list batch.

(** [model(...).loss.item()] *)
Variable forward_loss : model -> batch -> float.

(** The masked [(true_label, pred_label)] pairs of a batch. *)
Variable predict : model -> batch -> list (Z * Z).

(** [AutoModelForTokenClassification.from_pretrained]: every parameter of
    a freshly loaded model has [requires_grad = True]. *)
Definition from_pretrained (name : string) (n_labels : Z) : model :=
  map (fun w => Param w.1.1 w.1.2 true w.2) (pretrained_weights name n_labels).

(** [for param in model.<c>.parameters(): param.requires_grad = b] *)
Definition set_requires_grad (c : component) (b : bool) (m : model) : model :=
  map (fun p => if component_eqb (owner p) c
                then Param (pname p) (owner p) b (data p) else p) m.

(** The freeze cell, run on the notebook's global [model]. *)
Definition freeze_cell (m : model) : model :=
  set_requires_grad classifier true (set_requires_grad distilbert false m).

(** [[p for p in model.parameters() if p.requires_grad]] *)
Definition trainable_parameters (m : model) : list param :=
  List.filter requires_grad m.

(** The optimizer with its scheduler: the parameters it was given, the
    base learning rate, [total_steps] and the steps taken so far. *)
Record optimizer : Type := Optimizer {
  opt_params : list string;
  opt_lr : float;
  opt_total_steps : Z;
  opt_steps : nat
}.

(** The new value AdamW, at the scheduled learning rate, gives a parameter
    it holds. *)
Variable adamw_update : optimizer -> model -> batch -> param -> tensor.

(** [AdamW(params, lr=learning_rate)] refuses an empty parameter list. *)
Definition AdamW (params : list param) (lr : float) (total_steps : Z)
    : error + optimizer :=
  match params with
  | [] => inl (ValueError "optimizer got an empty parameter list")
  | _ :: _ => inr (Optimizer (map pname params) lr total_steps 0)
  end.

Definition held (opt : optimizer) (p : param) : bool :=
  existsb (String.eqb (pname p)) (opt_params opt).

(** [optimizer.zero_grad(); loss.backward(); optimizer.step();
    scheduler.step()]: only the parameters the optimizer holds change. *)
Definition optimizer_step (opt : optimizer) (m : model) (b : batch)
    : model * optimizer :=
  (map (fun p => if held opt p
                 then Param (pname p) (owner p) (requires_grad p)
                            (adamw_update opt m b p)
                 else p) m,
   Optimizer (opt_params opt) (opt_lr opt) (opt_total_steps opt)
             (S (opt_steps opt))).

(** The model, the optimizer and [epoch_loss]. *)
Definition train_state : Type := (model * optimizer * float)%type.

(** Body of [for batch in train_dataloader]. *)
Definition train_batch (st : train_state) (b : batch) : train_state :=
  let '(m, opt, epoch_loss) := st in
  let loss := forward_loss m b in
  let '(m, opt) := optimizer_step opt m b in
  (m, opt, PrimFloat.add epoch_loss loss).

(** [evaluate_token_classification(model, dataloader)['accuracy']] *)
Definition evaluate_accuracy (m : model) (dataloader : list batch) : error + Q :=
  res <-! Metrics.evaluate_token_classification (flat_map (predict m) dataloader);
  inr (Metrics.accuracy res).

(** Body of [for epoch in range(epochs)]. *)
Definition run_epoch (rank : Z) (cfg : config) (train_dataloader : list batch)
    (val_examples : list example) (epoch : nat) (m : model) (opt : optimizer)
    : error + (model * optimizer * report) :=
  let '(m, opt, epoch_loss) :=
    fold_left train_batch train_dataloader (m, opt, 0%float) in
  train_accuracy <-! evaluate_accuracy m train_dataloader;
  avg_loss <-! average_loss epoch_loss (length train_dataloader);
  due <-! checkpoint_due rank epoch (checkpoint_freq cfg);
  if due : bool
  then
    let checkpoint := checkpoint_path (checkpoint_dir cfg) epoch in
    val_dataloader <-! DataLoader val_examples (batch_size cfg);
    val_accuracy <-! evaluate_accuracy m val_dataloader;
    inr (m, opt, ReportCheckpoint avg_loss val_accuracy train_accuracy checkpoint)
  else inr (m, opt, ReportLoss avg_loss).

(** The reports a worker has made, and the exception that ended it, if any. *)
Definition outcome : Type := (list report * option error)%type.

Fixpoint run_epochs (rank : Z) (cfg : config) (train_dataloader : list batch)
    (val_examples : list example) (epochs : list nat) (m : model)
    (opt : optimizer) (reports : list report) : outcome :=
  match epochs with
  | [] => (reports, None)
  | epoch :: rest =>
      match run_epoch rank cfg train_dataloader val_examples epoch m opt with
      | inl e => (reports, Some e)
      | inr (m, opt, r) =>
          run_epochs rank cfg train_dataloader val_examples rest m opt
                     (reports ++ [r])
      end
  end.

(** The model, loader and optimizer the loop builds before its first epoch. *)
Definition setup (cfg : config) (train_examples : list example)
    : error + (model * list batch * optimizer) :=
  let m := from_pretrained (model_name cfg) (num_labels cfg) in
  train_dataloader <-! DataLoader train_examples (batch_size cfg);
  let total_steps := Z.of_nat (length train_dataloader) * num_epochs cfg in
  opt <-! AdamW (trainable_parameters m) (learning_rate cfg) total_steps;
  inr (m, train_dataloader, opt).

(** [train_loop_per_worker(config)] on the worker of world rank [rank],
    with the shards [ray.train.get_dataset_shard] returns. *)
Definition train_loop_per_worker (rank : Z) (cfg : config)
    (train_data val_data : option (list (list example))) : outcome :=
  match train_data, val_data with
  | Some train_batches, Some val_batches =>
      let train_examples := concat train_batches in
      let val_examples := concat val_batches in
      match setup cfg train_examples with
      | inl e => ([], Some e)
      | inr (m, train_dataloader, opt) =>
          run_epochs rank cfg train_dataloader val_examples
                     (seq 0 (Z.to_nat (num_epochs cfg))) m opt []
      end
  | _, _ =>
      ([], Some (ValueError
         "Dataset shard is None. Ensure dataset is passed correctly to TorchTrainer."))
  end.

(** Whether the outcome's report for [epoch] carries a checkpoint. *)
Definition checkpoint_at (o : outcome) (epoch : nat) : bool :=
  match o.1 !! epoch with
  | Some r => has_checkpoint r
  | None => false
  end.

End Loop.

End Train.

(** ** A concrete model for evaluating the training loop

    Two parameters, one in the base encoder and one in the head, whose
    values count the optimizer steps applied to them.  The forward pass
    yields the loss 0.5 until some parameter has been stepped twice and
    NaN from then on; every batch holds one correctly predicted token of
    class 0.  The loader yields one example per batch and, as a shuffling
    loader does, refuses an empty dataset. *)
Module ToyTrain.

Import Train.

Definition pretrained_weights (_ : string) (_ : Z)
    : list (string * component * Z) :=
  [("distilbert.embeddings.word_embeddings.weight", distilbert, 1);
   ("classifier.weight", classifier, 1)].

Definition DataLoader (examples : list example) (batch_size : Z)
    : error + list example :=
  if batch_size <=? 0
  then inl (ValueError "batch_size should be a positive integer value")
  else match examples with
       | [] => inl (ValueError "num_samples should be a positive integer value")
       | _ :: _ => inr examples
       end.

Definition forward_loss (m : model Z) (_ : example) : float :=
  if existsb (fun p => 2 <? data Z p) m then PrimFloat.nan else 0.5%float.

Definition predict (_ : model Z) (_ : example) : list (Z * Z) := [(0, 0)].

Definition adamw_update (_ : optimizer) (_ : model Z) (_ : example)
    (p : param Z) : Z :=
  data Z p + 1.

Definition cfg : config :=
  Config "distilbert-base-uncased" 3 2 10 0x1p-15%float "checkpoints" 1.

Definition ex : example := Example [101; 97; 102] [1; 1; 1] [-100; 2; -100].

Definition train_data : option (list (list example)) := Some [[ex; ex]].
Definition val_data : option (list (list example)) := Some [[ex]].

Definition setup := Train.setup Z example pretrained_weights DataLoader.

Definition optimizer_step := Train.optimizer_step Z example adamw_update.

Definition train_loop_per_worker :=
  Train.train_loop_per_worker Z example pretrained_weights DataLoader
                              forward_loss predict adamw_update.

(** The world ranks of three workers. *)
Definition ranks : list Z := [0; 1; 2].

(** Every worker gets the same shards. *)
Definition shards (_ : Z)
    : option (list (list example)) * option (list (list example)) :=
  (train_data, val_data).

End ToyTrain.

(** ** The losses of an epoch, as a reader of the loop would compute them

    The values the forward pass returns over one pass of the loader, the
    model and optimizer a pass leaves behind, those an epoch starts from,
    and the mean of a list of losses in binary64 arithmetic. *)
Module TrainSpec.

Import Train.

Section Losses.

Variable tensor : Type.
Variable batch : Type.
Variable forward_loss : model tensor -> batch -> float.
Variable adamw_update : optimizer -> model tensor -> batch -> param tensor -> tensor.






End Losses.

End TrainSpec.

(** ** Corpus reader: [_read_tsv_data] and [parse_file]

    The open file is the list of lines its iteration yields. *)

Module Reader.

Inductive read_error : Type :=
  | LineIndexError
  | AssertionError (msg : string).

(** Line boundaries recognised by [str.splitlines()] in the ASCII range. *)
Definition is_linebreak (c : ascii) : bool :=
  let n := nat_of_ascii c in
  ((10 <=? n)%nat && (n <=? 13)%nat) || ((28 <=? n)%nat && (n <=? 30)%nat).

Fixpoint before_linebreak (s : string) : string :=
  match s with
  | EmptyString => EmptyString
  | String c s' => if is_linebreak c then EmptyString
                   else String c (before_linebreak s')
  end.

(** [line.splitlines()[0]]: the empty string has no first line. *)
Definition first_line (line : string) : read_error + string :=
  match line with
  | EmptyString => inl LineIndexError
  | String _ _ => inr (before_linebreak line)
  end.

(** The locals [lines], [words], [labels] and [counter]. *)
Record state : Type := State {
  st_lines : list (string * string);
  st_words : list string;
  st_labels : list string;
  st_counter : Z
}.

Definition newline : string := String (ascii_of_nat 10) EmptyString.

(** The message of the [assert]. *)
Definition assert_message (lineIdx : nat) (words labels : list string) : string :=
  "lineIdx: " +:+ pretty lineIdx +:+ ",  len(words)(" +:+ pretty (length words)
  +:+ ") != len(labels)(" +:+ pretty (length labels) +:+ ") " +:+ newline
  +:+ " " +:+ PyStr.join words +:+ newline +:+ PyStr.join labels.

(** Body of [for lineIdx, line in enumerate(inpFilept)]. *)
Definition read_line (fetch_limit : Z) (lineIdx : nat) (st : state) (line : string)
    : read_error + (flow * state) :=
  match first_line line with
  | inl e => inl e
  | inr contents =>
      let lineList := PyStr.split contents in
      match lineList with
      | [] =>
          if st_counter st >? fetch_limit - 1 then inr (Break, st)
          else if negb (length (st_words st) =? length (st_labels st))%nat
          then inl (AssertionError
                      (assert_message lineIdx (st_words st) (st_labels st)))
          else if negb (length (st_words st) =? 0)%nat
          then
            let wordSent := PyStr.join (st_words st) in
            let labelSent := PyStr.join (st_labels st) in
            inr (Continue,
                 State (st_lines st ++ [(labelSent, wordSent)]) [] []
                       (st_counter st + 1))
          else inr (Continue, st)
      | first :: _ =>
          inr (Continue,
               State (st_lines st) (st_words st ++ [first])
                     (st_labels st ++ [List.last lineList first])
                     (st_counter st))
      end
  end.

Fixpoint read_lines (fetch_limit : Z) (lineIdx : nat) (st : state)
    (file_lines : list string) : read_error + state :=
  match file_lines with
  | [] => inr st
  | line :: rest =>
      match read_line fetch_limit lineIdx st line with
      | inl e => inl e
      | inr (Break, st') => inr st'
      | inr (Continue, st') => read_lines fetch_limit (S lineIdx) st' rest
      end
  end.

(** [_read_tsv_data(input_file, fetch_limit)] *)
Definition _read_tsv_data (file_lines : list string) (fetch_limit : Z)
    : read_error + list (string * string) :=
  match read_lines fetch_limit 0 (State [] [] [] 0) file_lines with
  | inl e => inl e
  | inr st =>
      if negb (length (st_words st) =? 0)%nat && (st_counter st <? fetch_limit - 1)
      then
        let wordSent := PyStr.join (st_words st) in
        let labelSent := PyStr.join (st_labels st) in
        inr (st_lines st ++ [(labelSent, wordSent)])
      else inr (st_lines st)
  end.

(** [fetch_limit = 5] and [parse_file]. *)
Definition fetch_limit : Z := 5.

Definition parse_file (file_lines : list string) : read_error + list (string * string) :=
  _read_tsv_data file_lines fetch_limit.

(** A token as [str.split()] returns it: not empty, no whitespace in it. *)
Definition no_space (s : string) : Prop :=
  Forall (fun c => PyStr.is_space c = false) (list_ascii_of_string s).

Definition token (s : string) : Prop := s <> EmptyString /\ no_space s.

(** A line with nothing but whitespace before its first line boundary. *)
Definition blank (line : string) : Prop :=
  PyStr.split (before_linebreak line) = [].

(** The word and the label a non-blank line contributes: its first and
    its last field. *)
Definition line_word (line : string) : string :=
  hd EmptyString (PyStr.split (before_linebreak line)).

Definition line_label (line : string) : string :=
  List.last (PyStr.split (before_linebreak line)) EmptyString.

(** The record the reader builds from the lines of one sentence. *)
Definition record_of (sentence_lines : list string) : string * string :=
  (PyStr.join (map line_label sentence_lines),
   PyStr.join (map line_word sentence_lines)).

(** A line of a sentence: not empty and not blank. *)
Definition sentence_line (line : string) : Prop :=
  line <> EmptyString /\ ~ blank line.

(** A separator: a non-empty blank line. *)
Definition separator (line : string) : Prop :=
  line <> EmptyString /\ blank line.

(** The lines of a corpus: every sentence followed by the separator
    [sep], then the lines of a last sentence that no separator follows. *)
Definition corpus_lines (sep : string) (sentences : list (list string))
    (trailing : list string) : list string :=
  flat_map (fun sentence_lines => sentence_lines ++ [sep]) sentences ++ trailing.

(** A record as the reader builds it: some tokens as words, as many
    tokens as labels, each list joined by single spaces. *)
Definition built_record (rec : string * string) : Prop :=
  exists ws ls, ws <> [] /\ Forall token ws /\ Forall token ls /\
                length ws = length ls /\
                rec = (PyStr.join ls, PyStr.join ws).

(** The code after the loop. *)
Definition finish (fetch_limit : Z) (r : read_error + state)
    : read_error + list (string * string) :=
  match r with
  | inl e => inl e
  | inr st =>
      if negb (length (st_words st) =? 0)%nat && (st_counter st <? fetch_limit - 1)
      then inr (st_lines st
                ++ [(PyStr.join (st_labels st), PyStr.join (st_words st))])
      else inr (st_lines st)
  end.

(** What the loop keeps true of its locals. *)
Definition invariant (fetch_limit : Z) (st : state) : Prop :=
  Forall token (st_words st) /\ Forall token (st_labels st) /\
  length (st_words st) = length (st_labels st) /\
  st_counter st = Z.of_nat (length (st_lines st)) /\
  st_counter st <= Z.max 0 fetch_limit /\
  Forall built_record (st_lines st).

(** A small corpus file: two sentences, the second not followed by a blank
    line. *)
Definition sample_file : list string :=
  [ "Cats B" +:+ newline; "run O" +:+ newline; newline;
    "Aspirin B" +:+ newline; "works O" +:+ newline ].

End Reader.

(** ** What the aligner computes for a record that fits *)

Section LabelAlignerSpec.

Variable lemmatize : string -> string.
Variable tokenize : string -> list string.

(** The labels of one word: nothing for a word without subwords or with
    an unknown label, else the id of its label for the first subword and
    the continuation id for each further one. *)
Definition word_labels (word label : string) : list Z :=
  match tokenize (lemmatize word), label_to_int !! label with
  | _ :: rest, Some l0 =>
      l0 :: replicate (length rest) (continuation_id label l0)
  | _, _ => []
  end.

Definition content_labels (pairs : list (string * string)) : list Z :=
  flat_map (fun p => word_labels p.1 p.2) pairs.

(** The words labelled B that have at least one subword. *)
Definition begin_words (pairs : list (string * string)) : nat :=
  length (List.filter
            (fun p => String.eqb p.2 "B"
                      && negb (length (tokenize (lemmatize p.1)) =? 0)%nat)
            pairs).

End LabelAlignerSpec.

(** ** What the confusion matrix counts *)

Module MetricsSpec.

(** A pair that is ignored, or whose two labels are class indices. *)
Definition plain_pair (tp : Z * Z) : Prop :=
  tp.1 = -100 \/ tp.2 = -100 \/ (0 <= tp.1 < 3 /\ 0 <= tp.2 < 3).

(** A pair the counting loop does not skip. *)
Definition counted (tp : Z * Z) : bool :=
  negb ((tp.1 =? -100) || (tp.2 =? -100)).

(** The number of counted pairs that pass [test]. *)
Definition tally (test : Z * Z -> bool) (pairs : list (Z * Z)) : Z :=
  Z.of_nat (length (List.filter (fun tp => counted tp && test tp) pairs)).

Definition any (_ : Z * Z) : bool := true.
Definition correct (tp : Z * Z) : bool := tp.1 =? tp.2.
Definition cell (i j : Z) (tp : Z * Z) : bool := (tp.1 =? i) && (tp.2 =? j).
Definition predicted (c : Z) (tp : Z * Z) : bool := tp.2 =? c.
Definition actual (c : Z) (tp : Z * Z) : bool := tp.1 =? c.

(** Two outcomes of the counting loop that agree: the same exception, or
    matrices with the same entries. *)
Definition agree (a b : error + Metrics.confusion) : Prop :=
  match a, b with
  | inl e1, inl e2 => e1 = e2
  | inr c1, inr c2 => forall i j, c1 i j = c2 i j
  | _, _ => False
  end.

End MetricsSpec.

(** * Properties *)

(** Case split on the first [a >? b] test of the goal. *)
Ltac case_gtb :=
  match goal with
  | |- context [ (?a >? ?b) ] => destruct (Z.gtb_spec a b)
  end.

(** ** The label table *)

Lemma label_to_int_B : label_to_int !! "B" = Some 0.
Proof. reflexivity. Qed.

Lemma label_to_int_I : label_to_int !! "I" = Some 1.
Proof. reflexivity. Qed.

Lemma label_to_int_O : label_to_int !! "O" = Some 2.
Proof. reflexivity. Qed.

Lemma label_to_int_Some (l : string) (z : Z) :
  label_to_int !! l = Some z <->
  (l = "B" /\ z = 0) \/ (l = "I" /\ z = 1) \/ (l = "O" /\ z = 2).
Proof.
  unfold label_to_int.
  rewrite !lookup_insert_Some, lookup_empty.
  split.
  - intros [ [ <- <- ] | [ ? [ [ <- <- ] | [ ? [ [ <- <- ] | [ ? ? ] ] ] ] ] ];
      auto; discriminate.
  - intros [ [ -> -> ] | [ [ -> -> ] | [ -> -> ] ] ].
    + by left.
    + right; split; [done|]. by left.
    + right; split; [done|]. right; split; [done|]. by left.
Qed.

Lemma valid_label_lookup (l : string) :
  valid_label l <-> is_Some (label_to_int !! l).
Proof.
  unfold valid_label, is_Some. split.
  - intros [ -> | [ -> | -> ] ]; eexists; reflexivity.
  - intros [z Hz]. apply label_to_int_Some in Hz. tauto.
Qed.

Lemma label_to_int_None (l : string) :
  ~ valid_label l <-> label_to_int !! l = None.
Proof.
  rewrite valid_label_lookup, eq_None_not_Some. done.
Qed.

Lemma label_id_range (l : string) (z : Z) :
  label_to_int !! l = Some z -> z = 0 \/ z = 1 \/ z = 2.
Proof. rewrite label_to_int_Some. tauto. Qed.

(** ** The word loop of the aligner *)

Section AlignerProps.

Context (lemmatize : string -> string) (tokenize : string -> list string)
        (convert_token_to_id : string -> Z)
        (cls_token_id sep_token_id pad_token_id : Z).

Local Abbreviation wids := (word_ids lemmatize tokenize convert_token_to_id).
Local Abbreviation raw := (raw_ids lemmatize tokenize convert_token_to_id).
Local Abbreviation body := (loop_body lemmatize tokenize convert_token_to_id).
Local Abbreviation loop := (align_loop lemmatize tokenize convert_token_to_id).
Local Abbreviation fin := (finalize cls_token_id sep_token_id pad_token_id).
Local Abbreviation record :=
  (align_record lemmatize tokenize convert_token_to_id
                cls_token_id sep_token_id pad_token_id).
Local Abbreviation file :=
  (align_file lemmatize tokenize convert_token_to_id
              cls_token_id sep_token_id pad_token_id).
Local Abbreviation files :=
  (align_files lemmatize tokenize convert_token_to_id
               cls_token_id sep_token_id pad_token_id).

Lemma wids_length (w : string) :
  length (wids w) = length (tokenize (lemmatize w)).
Proof. unfold word_ids, convert_tokens_to_ids. apply length_map. Qed.

Lemma wids_nil (w : string) :
  tokenize (lemmatize w) = [] -> wids w = [].
Proof. unfold word_ids. intros ->. reflexivity. Qed.

Lemma append_remaining_valid (n : nat) (r : string) (z : Z) (labs : list Z) :
  label_to_int !! r = Some z ->
  append_remaining n r labs = inr (labs ++ replicate n z).
Proof.
  intros Hr. revert labs.
  induction n as [|n IH]; intros labs; simpl.
  - by rewrite app_nil_r.
  - rewrite Hr, IH, <- app_assoc. reflexivity.
Qed.

Lemma remaining_label_lookup (l : string) (l0 : Z) :
  label_to_int !! l = Some l0 ->
  label_to_int !! (if String.eqb l "B" then "I" else l)
  = Some (continuation_id l l0).
Proof.
  intros Hl. unfold continuation_id.
  destruct (String.eqb l "B"); [apply label_to_int_I | exact Hl].
Qed.

Lemma body_skip (st : loop_state) (w l : string) :
  tokenize (lemmatize w) = [] -> body st w l = inr (Continue, st).
Proof. unfold loop_body. destruct st. intros ->. reflexivity. Qed.

Lemma body_key_error (st : loop_state) (w l : string) :
  tokenize (lemmatize w) <> [] -> label_to_int !! l = None ->
  body st w l = inl (KeyError l).
Proof.
  unfold loop_body. destruct st as [ids labs]. intros Hne Hl.
  destruct (tokenize (lemmatize w)); [done|]. by rewrite Hl.
Qed.

Lemma body_break (ids labs : list Z) (w l : string) (l0 : Z) :
  tokenize (lemmatize w) <> [] -> label_to_int !! l = Some l0 ->
  Z.of_nat (length (ids ++ wids w)) > max_length - 2 ->
  body (ids, labs) w l = inr (Break, (ids ++ wids w, labs ++ [l0])).
Proof.
  unfold loop_body, word_ids. intros Hne Hl Hlen.
  destruct (tokenize (lemmatize w)) as [|t ts] eqn:Ht; [done|].
  rewrite Hl.
  case_gtb; [reflexivity | lia].
Qed.

Lemma body_fit (ids labs : list Z) (w l : string) (l0 : Z) :
  tokenize (lemmatize w) <> [] -> label_to_int !! l = Some l0 ->
  Z.of_nat (length (ids ++ wids w)) <= max_length - 2 ->
  body (ids, labs) w l
  = inr (Continue, (ids ++ wids w,
                    labs ++ l0 :: replicate (length (wids w) - 1)
                                            (continuation_id l l0))).
Proof.
  intros Hne Hl Hlen.
  pose proof (wids_length w) as Hk.
  unfold loop_body. unfold word_ids in *.
  destruct (tokenize (lemmatize w)) as [|t ts] eqn:Ht; [done|].
  rewrite Hl.
  case_gtb; [lia|].
  rewrite Hk.
  case_gtb.
  - rewrite (append_remaining_valid _ _ _ _ (remaining_label_lookup _ _ Hl)).
    rewrite <- app_assoc. reflexivity.
  - destruct ts; [reflexivity | simpl in *; lia].
Qed.

(** Every successful run of the loop body is one of the three cases. *)
Lemma body_inv (st : loop_state) (w l : string) (f : flow) (st' : loop_state) :
  body st w l = inr (f, st') ->
  (tokenize (lemmatize w) = [] /\ f = Continue /\ st' = st) \/
  (tokenize (lemmatize w) <> [] /\
   exists l0, label_to_int !! l = Some l0 /\ st'.1 = st.1 ++ wids w /\
     ((f = Break /\ Z.of_nat (length st'.1) > max_length - 2 /\
       st'.2 = st.2 ++ [l0]) \/
      (f = Continue /\ Z.of_nat (length st'.1) <= max_length - 2 /\
       st'.2 = st.2 ++ l0 :: replicate (length (wids w) - 1)
                                       (continuation_id l l0)))).
Proof.
  destruct st as [ids labs]. intros Hb.
  destruct (decide (tokenize (lemmatize w) = [])) as [Hnil|Hne].
  - rewrite (body_skip _ _ _ Hnil) in Hb. left. naive_solver.
  - right. split; [done|].
    destruct (label_to_int !! l) as [l0|] eqn:Hl.
    + exists l0. split; [done|].
      destruct (Z_le_gt_dec (Z.of_nat (length (ids ++ wids w))) (max_length - 2))
        as [Hle|Hgt].
      * rewrite (body_fit _ _ _ _ _ Hne Hl Hle) in Hb.
        inversion Hb; subst; simpl. split; [done|]. right. done.
      * rewrite (body_break _ _ _ _ _ Hne Hl Hgt) in Hb.
        inversion Hb; subst; simpl. split; [done|]. left. done.
    + rewrite (body_key_error _ _ _ Hne Hl) in Hb. discriminate.
Qed.

Lemma body_error_inv (st : loop_state) (w l : string) (e : error) :
  body st w l = inl e ->
  e = KeyError l /\ ~ valid_label l /\ tokenize (lemmatize w) <> [].
Proof.
  destruct st as [ids labs]. intros Hb.
  destruct (decide (tokenize (lemmatize w) = [])) as [Hnil|Hne].
  - rewrite (body_skip _ _ _ Hnil) in Hb. discriminate.
  - destruct (label_to_int !! l) as [l0|] eqn:Hl.
    + destruct (Z_le_gt_dec (Z.of_nat (length (ids ++ wids w))) (max_length - 2))
        as [Hle|Hgt].
      * rewrite (body_fit _ _ _ _ _ Hne Hl Hle) in Hb. discriminate.
      * rewrite (body_break _ _ _ _ _ Hne Hl Hgt) in Hb. discriminate.
    + rewrite (body_key_error _ _ _ Hne Hl) in Hb.
      inversion Hb. by rewrite label_to_int_None.
Qed.

Lemma body_ids (st : loop_state) (w l : string) (f : flow) (st' : loop_state) :
  body st w l = inr (f, st') ->
  st'.1 = st.1 ++ wids w /\
  (f = Break -> Z.of_nat (length st'.1) > max_length - 2).
Proof.
  intros Hb. apply body_inv in Hb as [(Hnil & -> & ->)|(_ & l0 & _ & Hids & Hcase)].
  - rewrite (wids_nil _ Hnil), app_nil_r. done.
  - split; [done|]. intros ->.
    destruct Hcase as [(_ & ? & _)|(? & _)]; [lia | done].
Qed.

Lemma body_labels_ok (st : loop_state) (w l : string) (f : flow) (st' : loop_state) :
  body st w l = inr (f, st') ->
  Forall label_id_ok st.2 -> Forall label_id_ok st'.2.
Proof.
  intros Hb Hok.
  apply body_inv in Hb as [(_ & _ & ->)|(_ & l0 & Hl & _ & Hcase)]; [done|].
  pose proof (label_id_range _ _ Hl) as Hl0.
  destruct Hcase as [(_ & _ & ->)|(_ & _ & ->)].
  - apply Forall_app; split; [done|]. by apply Forall_cons.
  - apply Forall_app; split; [done|]. apply Forall_cons; split; [done|].
    apply Forall_replicate. unfold continuation_id, label_id_ok in *.
    destruct (String.eqb l "B"); tauto.
Qed.

Lemma body_total (st : loop_state) (w l : string) :
  valid_label l -> exists f st', body st w l = inr (f, st').
Proof.
  intros [l0 Hl]%valid_label_lookup. destruct st as [ids labs].
  destruct (decide (tokenize (lemmatize w) = [])) as [Hnil|Hne].
  - rewrite (body_skip _ _ _ Hnil). eauto.
  - destruct (Z_le_gt_dec (Z.of_nat (length (ids ++ wids w))) (max_length - 2))
      as [Hle|Hgt].
    + rewrite (body_fit _ _ _ _ _ Hne Hl Hle). eauto.
    + rewrite (body_break _ _ _ _ _ Hne Hl Hgt). eauto.
Qed.

(** A run that has not exceeded the budget did not [break], so the loop
    goes on with the pairs that follow. *)
Lemma loop_app (pre suf : list (string * string)) (st st' : loop_state) :
  loop st pre = inr st' -> Z.of_nat (length st'.1) <= max_length - 2 ->
  loop st (pre ++ suf) = loop st' suf.
Proof.
  revert st. induction pre as [|[w l] pre IH]; intros st Hrun Hlen; simpl in *.
  - by inversion Hrun.
  - destruct (body st w l) as [e|[[] st'']] eqn:Hb; [done|by apply IH|].
    inversion Hrun; subst.
    apply body_ids in Hb as [_ Hbrk]. specialize (Hbrk eq_refl). lia.
Qed.

(** The accumulated ids are a prefix of the raw subword ids, and all of
    them unless the budget was exceeded. *)
Lemma loop_ids (pairs : list (string * string)) (st st' : loop_state) :
  loop st pairs = inr st' ->
  st'.1 `prefix_of` (st.1 ++ raw pairs.*1) /\
  (Z.of_nat (length st'.1) <= max_length - 2 -> st'.1 = st.1 ++ raw pairs.*1).
Proof.
  revert st. induction pairs as [|[w l] pairs IH]; intros st Hrun; simpl in *.
  - inversion Hrun; subst. rewrite app_nil_r. done.
  - destruct (body st w l) as [e|[[] st'']] eqn:Hb; [done|..].
    + apply body_ids in Hb as [Hids _].
      apply IH in Hrun as [Hpre Hall].
      rewrite Hids, <- app_assoc in Hpre, Hall. done.
    + inversion Hrun; subst.
      apply body_ids in Hb as [Hids Hbrk]. specialize (Hbrk eq_refl).
      split; [|lia]. rewrite Hids, app_assoc. apply prefix_app_r. done.
Qed.

Lemma loop_labels_ok (pairs : list (string * string)) (st st' : loop_state) :
  loop st pairs = inr st' ->
  Forall label_id_ok st.2 -> Forall label_id_ok st'.2.
Proof.
  revert st. induction pairs as [|[w l] pairs IH]; intros st Hrun Hok; simpl in *.
  - by inversion Hrun; subst.
  - destruct (body st w l) as [e|[[] st'']] eqn:Hb; [done|..].
    + eapply IH; [done|]. by eapply body_labels_ok.
    + inversion Hrun; subst. by eapply body_labels_ok.
Qed.

(** Without a [break] the two accumulators stay the same length. *)
Lemma loop_sync (pairs : list (string * string)) (st st' : loop_state) :
  loop st pairs = inr st' ->
  length st.2 = length st.1 ->
  Z.of_nat (length st'.1) <= max_length - 2 ->
  length st'.2 = length st'.1.
Proof.
  revert st. induction pairs as [|[w l] pairs IH]; intros st Hrun Hsync Hlen;
    simpl in *.
  - by inversion Hrun; subst.
  - destruct (body st w l) as [e|[[] st'']] eqn:Hb; [done|..].
    + eapply IH; [done| |done].
      apply body_inv in Hb as [(_ & _ & ->)|(Hne & l0 & _ & -> & Hcase)]; [done|].
      destruct Hcase as [(? & _)|(_ & _ & ->)]; [done|].
      pose proof (wids_length w).
      destruct (tokenize (lemmatize w)); [done|]. simpl in *.
      rewrite !length_app. simpl. rewrite length_replicate. lia.
    + inversion Hrun; subst.
      apply body_ids in Hb as [_ Hbrk]. specialize (Hbrk eq_refl). lia.
Qed.

Lemma loop_total (pairs : list (string * string)) (st : loop_state) :
  Forall (fun p => valid_label p.2) pairs -> exists st', loop st pairs = inr st'.
Proof.
  revert st. induction pairs as [|[w l] pairs IH]; intros st Hv; simpl.
  - eauto.
  - apply Forall_cons in Hv as [Hl Hv].
    destruct (body_total st w l Hl) as (f & st'' & ->).
    destruct f; eauto.
Qed.

(** The first word that reaches the table with an unknown label raises. *)
Lemma loop_key_error (pre suf : list (string * string)) (w l : string)
    (st : loop_state) :
  Z.of_nat (length (st.1 ++ raw pre.*1)) <= max_length - 2 ->
  tokenize (lemmatize w) <> [] -> ~ valid_label l ->
  exists k, ~ valid_label k /\ loop st (pre ++ (w, l) :: suf) = inl (KeyError k).
Proof.
  intros Hlen Hne Hl. revert st Hlen.
  induction pre as [|[w' l'] pre IH]; intros st Hlen; simpl in *.
  - apply label_to_int_None in Hl as Hnone.
    rewrite (body_key_error _ _ _ Hne Hnone). eauto.
  - rewrite app_assoc in Hlen.
    destruct (body st w' l') as [e|[[] st'']] eqn:Hb.
    + apply body_error_inv in Hb as (-> & ? & _). eauto.
    + apply body_ids in Hb as [Hids _]. apply IH. by rewrite Hids.
    + apply body_ids in Hb as [Hids Hbrk]. specialize (Hbrk eq_refl).
      rewrite Hids in Hbrk. rewrite length_app in Hlen. lia.
Qed.

(** *** Truncation, markers and padding *)

Lemma fin_ids_length (st : loop_state) :
  Z.of_nat (length (input_ids (fin st))) = max_length /\
  Z.of_nat (length (attention_mask (fin st))) = max_length.
Proof.
  destruct st as [ids labs]. unfold finalize.
  case_gtb; case_gtb; cbn [input_ids attention_mask];
    rewrite ?length_app, ?length_replicate, ?length_app, ?length_take in *;
    cbn [length] in *; unfold max_length in *; lia.
Qed.

Lemma fin_truncated (ids labs : list Z) :
  Z.of_nat (length ids) > max_length - 2 ->
  fin (ids, labs)
  = Example ([cls_token_id] ++ take (Z.to_nat (max_length - 2)) ids
               ++ [sep_token_id])
            (replicate (Z.to_nat max_length) 1)
            ([-100] ++ take (Z.to_nat (max_length - 2)) labs ++ [-100]).
Proof.
  intros Hlen. unfold finalize.
  case_gtb; [|lia].
  assert (length ([cls_token_id] ++ take (Z.to_nat (max_length - 2)) ids
                    ++ [sep_token_id]) = Z.to_nat max_length) as Hfull.
  { rewrite !length_app, length_take. cbn [length].
    unfold max_length in *. lia. }
  rewrite Hfull.
  case_gtb; [lia | reflexivity].
Qed.

Lemma fin_labels_length (ids labs : list Z) :
  length labs = length ids ->
  Z.of_nat (length (labels (fin (ids, labs)))) = max_length.
Proof.
  intros Hsync. unfold finalize.
  case_gtb; case_gtb; cbn [labels];
    rewrite ?length_app, ?length_replicate, ?length_app, ?length_take in *;
    cbn [length] in *; unfold max_length in *; lia.
Qed.

Lemma fin_labels_ok (st : loop_state) :
  Forall label_id_ok st.2 ->
  Forall (fun z => label_id_ok z \/ z = -100) (labels (fin st)).
Proof.
  destruct st as [ids labs]. intros Hok. simpl in Hok.
  assert (Forall (fun z => label_id_ok z \/ z = -100) labs) as Hok'.
  { eapply Forall_impl; [exact Hok|]. auto. }
  unfold finalize.
  case_gtb; case_gtb; cbn [labels];
    repeat first [ apply Forall_app; split | apply Forall_cons; split
                 | apply Forall_nil | apply Forall_replicate
                 | apply Forall_take ];
    auto.
Qed.

(** *** One record *)

Lemma record_mismatch (label_str sentence : string) :
  length (PyStr.split label_str) <> length (PyStr.split (PyStr.lower sentence)) ->
  record label_str sentence
  = inl (ValueError (mismatch_message
                       (length (PyStr.split label_str))
                       (length (PyStr.split (PyStr.lower sentence))))).
Proof.
  intros Hne. unfold align_record.
  destruct (Nat.eqb_spec (length (PyStr.split label_str))
              (length (PyStr.split (PyStr.lower sentence)))); done.
Qed.

Lemma record_aligned (label_str sentence : string) :
  length (PyStr.split label_str) = length (PyStr.split (PyStr.lower sentence)) ->
  record label_str sentence
  = match loop ([], []) (zip (PyStr.split (PyStr.lower sentence))
                             (PyStr.split label_str)) with
    | inl e => inl e
    | inr st => inr (fin st)
    end.
Proof.
  intros Heq. unfold align_record.
  destruct (Nat.eqb_spec (length (PyStr.split label_str))
              (length (PyStr.split (PyStr.lower sentence)))); done.
Qed.

(** Every example the aligner produces has [max_length] token ids and an
    attention mask of the same length. *)
Lemma record_ids_length (label_str sentence : string) (ex : example) :
  record label_str sentence = inr ex ->
  Z.of_nat (length (input_ids ex)) = max_length /\
  Z.of_nat (length (attention_mask ex)) = max_length.
Proof.
  unfold align_record. intros Hrec.
  destruct (negb _); [done|].
  destruct (loop _ _) as [e|st]; [done|].
  inversion Hrec; subst. apply fin_ids_length.
Qed.

(** When the raw subwords fit the budget, the label sequence has
    [max_length] entries as well. *)
Lemma record_labels_length_fit (label_str sentence : string) (ex : example) :
  record label_str sentence = inr ex ->
  Z.of_nat (length (raw (PyStr.split (PyStr.lower sentence)))) <= max_length - 2 ->
  Z.of_nat (length (labels ex)) = max_length.
Proof.
  unfold align_record. intros Hrec Hfit.
  destruct (Nat.eqb_spec (length (PyStr.split label_str))
              (length (PyStr.split (PyStr.lower sentence)))) as [Heq|]; [|done].
  simpl in Hrec.
  destruct (loop _ _) as [e|[ids labs]] eqn:Hrun; [done|].
  inversion Hrec; subst. apply fin_labels_length.
  pose proof (loop_ids _ _ _ Hrun) as [Hpre _]. simpl in Hpre.
  rewrite fst_zip in Hpre by lia.
  apply prefix_length in Hpre.
  apply (loop_sync _ _ _ Hrun); simpl; [done | lia].
Qed.

(** When the word that crosses the budget starts at content position
    [n <= max_length - 3], the loop leaves with [n + 1] labels only, and
    the example carries [n + 3] label ids. *)
Lemma record_labels_length_break (label_str sentence : string)
    (pre suf : list (string * string)) (w l : string) (ids labs : list Z)
    (l0 : Z) :
  length (PyStr.split label_str) = length (PyStr.split (PyStr.lower sentence)) ->
  zip (PyStr.split (PyStr.lower sentence)) (PyStr.split label_str)
  = pre ++ (w, l) :: suf ->
  loop ([], []) pre = inr (ids, labs) ->
  Z.of_nat (length ids) + 1 <= max_length - 2 ->
  label_to_int !! l = Some l0 ->
  Z.of_nat (length (ids ++ wids w)) > max_length - 2 ->
  exists ex, record label_str sentence = inr ex /\
             Z.of_nat (length (labels ex)) = Z.of_nat (length ids) + 3.
Proof.
  intros Heq Hzip Hrun Hn Hl Hover.
  assert (tokenize (lemmatize w) <> []) as Hne.
  { intros Hnil. rewrite (wids_nil _ Hnil), app_nil_r in Hover. lia. }
  assert (length labs = length ids) as Hsync.
  { apply (loop_sync _ _ _ Hrun); simpl; [done | lia]. }
  rewrite record_aligned, Hzip by done.
  rewrite (loop_app pre _ _ _ Hrun) by (simpl; lia).
  cbn [align_loop]. rewrite (body_break _ _ _ _ _ Hne Hl Hover).
  eexists; split; [reflexivity|].
  rewrite fin_truncated by done. cbn [labels].
  rewrite !length_app, length_take, length_app. cbn [length].
  unfold max_length in *. lia.
Qed.

Lemma Forall_zip_snd {A B : Type} (P : B -> Prop) (l1 : list A) (l2 : list B) :
  Forall P l2 -> Forall (fun p => P p.2) (zip l1 l2).
Proof.
  intros H. revert l1.
  induction H as [|y l2 Hy _ IH]; intros [|x l1]; simpl; constructor;
    [exact Hy | apply IH].
Qed.

(** *** Claims about one record *)

(** The token side of truncation: when the raw subword count of a record
    exceeds [max_length - 2], the content between the begin and end
    markers of the produced token ids has exactly [max_length - 2]
    entries and is the leading [max_length - 2] raw subword ids, so the
    subwords of the word in progress that fit are kept; and under equal
    counts and labels in {B, I, O} an example is indeed produced. *)
Theorem truncation_token_content (label_str sentence : string) :
  Z.of_nat (length (raw (PyStr.split (PyStr.lower sentence)))) > max_length - 2 ->
  (forall ex, record label_str sentence = inr ex ->
     exists content,
       input_ids ex = [cls_token_id] ++ content ++ [sep_token_id] /\
       Z.of_nat (length content) = max_length - 2 /\
       content = take (Z.to_nat (max_length - 2))
                      (raw (PyStr.split (PyStr.lower sentence))) /\
       attention_mask ex = replicate (Z.to_nat max_length) 1) /\
  (length (PyStr.split label_str) = length (PyStr.split (PyStr.lower sentence)) ->
   Forall valid_label (PyStr.split label_str) ->
   exists ex, record label_str sentence = inr ex).
Proof.
  intros Hraw. split.
  - intros ex Hrec.
    destruct (decide (length (PyStr.split label_str)
                      = length (PyStr.split (PyStr.lower sentence)))) as [Heq|Hne];
      [|by rewrite record_mismatch in Hrec].
    rewrite record_aligned in Hrec by done.
    destruct (loop _ _) as [e|st] eqn:Hrun; [done|].
    injection Hrec as <-. destruct st as [ids labs].
    apply loop_ids in Hrun as [[rest Hpre] Hall]. simpl in Hpre, Hall.
    rewrite fst_zip in Hpre, Hall by lia.
    assert (Z.of_nat (length ids) > max_length - 2) as Hlong.
    { destruct (Z_le_gt_dec (Z.of_nat (length ids)) (max_length - 2)); [|done].
      rewrite <- Hall in Hraw by done. lia. }
    rewrite fin_truncated by done.
    exists (take (Z.to_nat (max_length - 2)) ids). cbn [input_ids attention_mask].
    split; [done|]. split.
    + rewrite length_take. unfold max_length in *. lia.
    + split; [|done]. rewrite Hpre, take_app_le; [done|lia].
  - intros Heq Hvalid. rewrite record_aligned by done.
    destruct (loop_total (zip (PyStr.split (PyStr.lower sentence))
                              (PyStr.split label_str)) ([], [])) as [st ->];
      [by apply Forall_zip_snd | eauto].
Qed.

(** C10 (amended): in a record with equal counts, a label outside
    {B, I, O} raises the dictionary-lookup error when its word yields at
    least one subword and the words before it fit the budget; with all
    labels in {B, I, O} no error is raised and every emitted label id is
    0, 1, 2 or the ignore value -100. *)
Theorem C10_label_lookup (label_str sentence : string) :
  length (PyStr.split label_str) = length (PyStr.split (PyStr.lower sentence)) ->
  (forall pre w l suf,
     zip (PyStr.split (PyStr.lower sentence)) (PyStr.split label_str)
     = pre ++ (w, l) :: suf ->
     Z.of_nat (length (raw pre.*1)) <= max_length - 2 ->
     tokenize (lemmatize w) <> [] -> ~ valid_label l ->
     exists k, ~ valid_label k /\ record label_str sentence = inl (KeyError k)) /\
  (Forall valid_label (PyStr.split label_str) ->
   exists ex, record label_str sentence = inr ex /\
              Forall (fun z => label_id_ok z \/ z = -100) (labels ex)).
Proof.
  intros Heq. rewrite record_aligned by done. split.
  - intros pre w l suf -> Hfit Hne Hl.
    destruct (loop_key_error pre suf w l ([], []) Hfit Hne Hl) as (k & Hk & ->).
    eauto.
  - intros Hvalid.
    destruct (loop_total (zip (PyStr.split (PyStr.lower sentence))
                              (PyStr.split label_str)) ([], [])) as [st Hrun];
      [by apply Forall_zip_snd|].
    rewrite Hrun. eexists; split; [done|].
    apply fin_labels_ok. by eapply loop_labels_ok.
Qed.

(** C2 (amended): for a word the loop reaches (the content accumulated by
    the pairs before it is within [max_length - 2]), the first label
    appended is the id of the word's own label; and when its k > 1
    subwords keep the content within [max_length - 2], the labels
    appended for it are [B, I, ..., I] for B and k copies of the label
    for I and O. *)
Theorem C2_continuation_rule (pre : list (string * string)) (w l : string)
    (ids labs : list Z) :
  loop ([], []) pre = inr (ids, labs) ->
  Z.of_nat (length ids) <= max_length - 2 ->
  (forall l0, label_to_int !! l = Some l0 -> tokenize (lemmatize w) <> [] ->
     exists rest, loop ([], []) (pre ++ [(w, l)])
                  = inr (ids ++ wids w, labs ++ l0 :: rest)) /\
  ((1 < length (tokenize (lemmatize w)))%nat ->
   Z.of_nat (length ids + length (tokenize (lemmatize w))) <= max_length - 2 ->
   (l = "B" ->
    loop ([], []) (pre ++ [(w, l)])
    = inr (ids ++ wids w,
           labs ++ 0 :: replicate (length (tokenize (lemmatize w)) - 1) 1)) /\
   (l = "I" ->
    loop ([], []) (pre ++ [(w, l)])
    = inr (ids ++ wids w,
           labs ++ replicate (length (tokenize (lemmatize w))) 1)) /\
   (l = "O" ->
    loop ([], []) (pre ++ [(w, l)])
    = inr (ids ++ wids w,
           labs ++ replicate (length (tokenize (lemmatize w))) 2))).
Proof.
  intros Hrun Hreach.
  rewrite (loop_app pre [(w, l)] _ _ Hrun Hreach). cbn [align_loop]. split.
  - intros l0 Hl Hne.
    destruct (Z_le_gt_dec (Z.of_nat (length (ids ++ wids w))) (max_length - 2))
      as [Hle|Hgt].
    + rewrite (body_fit _ _ _ _ _ Hne Hl Hle). eauto.
    + rewrite (body_break _ _ _ _ _ Hne Hl Hgt). eauto.
  - intros Hk Hfit.
    assert (tokenize (lemmatize w) <> []) as Hne.
    { intros Hnil. rewrite Hnil in Hk. simpl in Hk. lia. }
    assert (Z.of_nat (length (ids ++ wids w)) <= max_length - 2) as Hle.
    { rewrite length_app, wids_length. lia. }
    split; [|split]; intros ->.
    + rewrite (body_fit _ _ _ _ _ Hne label_to_int_B Hle), wids_length.
      reflexivity.
    + rewrite (body_fit _ _ _ _ _ Hne label_to_int_I Hle), wids_length.
      destruct (length (tokenize (lemmatize w))) as [|k]; [lia|].
      replace (S k - 1)%nat with k by lia. reflexivity.
    + rewrite (body_fit _ _ _ _ _ Hne label_to_int_O Hle), wids_length.
      destruct (length (tokenize (lemmatize w))) as [|k]; [lia|].
      replace (S k - 1)%nat with k by lia. reflexivity.
Qed.

(** *** The batch *)

Local Abbreviation batch :=
  (lemmatize_tokenize_and_align_labels lemmatize tokenize convert_token_to_id
     cls_token_id sep_token_id pad_token_id).
Local Abbreviation ok_record :=
  (aligns lemmatize tokenize convert_token_to_id
          cls_token_id sep_token_id pad_token_id).

Lemma file_skip_aligned (pre : list (string * string)) :
  Forall ok_record pre ->
  exists exs, forall i rest acc,
    file i (pre ++ rest) acc = file (i + length pre) rest (acc ++ exs).
Proof.
  induction 1 as [|[label_str sentence] pre [ex Hex] _ [exs IH]].
  - exists []. intros i rest acc. simpl.
    by rewrite Nat.add_0_r, app_nil_r.
  - exists (ex :: exs). intros i rest acc. simpl in *.
    rewrite Hex, IH. f_equal; [lia|].
    rewrite <- app_assoc. reflexivity.
Qed.

Lemma files_skip_aligned (fs : list (list (string * string))) :
  Forall (Forall ok_record) fs ->
  exists exs, forall rest acc,
    files (fs ++ rest) acc = files rest (acc ++ exs).
Proof.
  induction 1 as [|f fs Hf _ [exs IH]].
  - exists []. intros rest acc. simpl. by rewrite app_nil_r.
  - destruct (file_skip_aligned f Hf) as [exs0 Hfile].
    exists (exs0 ++ exs). intros rest acc. simpl.
    specialize (Hfile 0%nat [] acc). rewrite app_nil_r in Hfile.
    rewrite Hfile. simpl. rewrite IH, app_assoc. reflexivity.
Qed.

(** C3 (amended): a record whose label count differs from its word count
    makes the aligner fail with a [ValueError] whose message gives the
    two counts, [Mismatch: L labels but W words], wherever the record
    sits in the batch (after records that align); the message carries
    no record index. *)
Theorem C3_mismatch_raises (fs fs' : list (list (string * string)))
    (pre suf : list (string * string)) (label_str sentence : string) :
  Forall (Forall ok_record) fs -> Forall ok_record pre ->
  length (PyStr.split label_str) <> length (PyStr.split (PyStr.lower sentence)) ->
  record label_str sentence
  = inl (ValueError (mismatch_message
                       (length (PyStr.split label_str))
                       (length (PyStr.split (PyStr.lower sentence))))) /\
  batch (fs ++ (pre ++ (label_str, sentence) :: suf) :: fs')
  = inl (ValueError (mismatch_message
                       (length (PyStr.split label_str))
                       (length (PyStr.split (PyStr.lower sentence))))).
Proof.
  intros Hfs Hpre Hne.
  pose proof (record_mismatch _ _ Hne) as Hrec.
  split; [exact Hrec|].
  unfold lemmatize_tokenize_and_align_labels.
  destruct (files_skip_aligned fs Hfs) as [exs ->].
  destruct (file_skip_aligned pre Hpre) as [exs0 Hfile].
  cbn [align_files]. rewrite Hfile. cbn [align_file]. rewrite Hrec.
  reflexivity.
Qed.

End AlignerProps.

(** ** The aligner on concrete records *)

(** C1 (defect in the code): a record of 508 one-subword words followed by
    a three-subword word is truncated inside that word.  The loop leaves
    before the continuation labels are appended, so the example has
    [max_length] token ids and mask entries but only 511 label ids. *)
Theorem C1_label_ids_short_after_truncation :
  length (PyStr.split (Toy.tags 508 ["B"]))
  = length (PyStr.split (PyStr.lower (Toy.sentence 508 ["abc"]))) /\
  exists ex,
    Toy.align (Toy.tags 508 ["B"]) (Toy.sentence 508 ["abc"]) = inr ex /\
    Z.of_nat (length (input_ids ex)) = max_length /\
    Z.of_nat (length (attention_mask ex)) = max_length /\
    Z.of_nat (length (labels ex)) = max_length - 1.
Proof.
  split; [vm_compute; reflexivity|].
  destruct (Toy.align (Toy.tags 508 ["B"]) (Toy.sentence 508 ["abc"]))
    as [e|ex] eqn:Hrun; [by vm_compute in Hrun|].
  exists ex. split; [reflexivity|].
  vm_compute in Hrun. injection Hrun as <-.
  repeat split; vm_compute; reflexivity.
Qed.

(** C4 (defect in the code): on the same record the raw subword count is
    511, above [max_length - 2].  Between the markers the token ids hold
    exactly the first [max_length - 2] raw subword ids, the first two
    subwords of the last word included, and fill the example with no
    padding; but the labels hold only 509 entries between their markers,
    one short of [max_length - 2]: the second subword of the last word is
    kept without a label. *)
Theorem C4_label_content_short_after_truncation :
  Z.of_nat (length (Toy.raw (PyStr.split (PyStr.lower (Toy.sentence 508 ["abc"])))))
  = max_length - 1 /\
  exists ex content label_content,
    Toy.align (Toy.tags 508 ["B"]) (Toy.sentence 508 ["abc"]) = inr ex /\
    input_ids ex = [101] ++ content ++ [102] /\
    content = take (Z.to_nat (max_length - 2))
                   (Toy.raw (PyStr.split (PyStr.lower (Toy.sentence 508 ["abc"])))) /\
    Z.of_nat (length content) = max_length - 2 /\
    Toy.raw (PyStr.split (PyStr.lower (Toy.sentence 508 ["abc"])))
    = take 508 content ++ Toy.wids "abc" /\
    drop 508 content = take 2 (Toy.wids "abc") /\
    labels ex = [-100] ++ label_content ++ [-100] /\
    Z.of_nat (length label_content) = max_length - 3 /\
    label_content = replicate 508 2 ++ [0].
Proof.
  split; [vm_compute; reflexivity|].
  destruct (Toy.align (Toy.tags 508 ["B"]) (Toy.sentence 508 ["abc"]))
    as [e|ex] eqn:Hrun; [by vm_compute in Hrun|].
  exists ex,
    (take (Z.to_nat (max_length - 2))
          (Toy.raw (PyStr.split (PyStr.lower (Toy.sentence 508 ["abc"]))))),
    (replicate 508 2 ++ [0]).
  split; [reflexivity|].
  vm_compute in Hrun. injection Hrun as <-.
  split; [vm_compute; reflexivity|]. split; [reflexivity|].
  split; [vm_compute; reflexivity|]. split; [vm_compute; reflexivity|].
  split; [vm_compute; reflexivity|]. split; [vm_compute; reflexivity|].
  split; [vm_compute; reflexivity|]. reflexivity.
Qed.

(** C2, as stated, fails for a word that comes after accumulation has
    stopped: after 511 one-subword words the two-subword word [ab],
    labelled B, gets no label at all. *)
Lemma C2_counterexample_word_after_stop :
  ~ (forall (pre : list (string * string)) (w : string)
            (ids labs ids' labs' : list Z),
        (1 < length (Toy.tokenize (Toy.lemmatize w)))%nat ->
        Toy.loop ([], []) pre = inr (ids, labs) ->
        Toy.loop ([], []) (pre ++ [(w, "B")]) = inr (ids', labs') ->
        labs' = labs ++ 0 :: replicate (length (Toy.tokenize (Toy.lemmatize w)) - 1) 1).
Proof.
  intros Hclaim.
  specialize (Hclaim (replicate 511 ("a", "O")) "ab"
                (replicate 511 97) (replicate 511 2)
                (replicate 511 97) (replicate 511 2)).
  apply (f_equal length) in Hclaim.
  - vm_compute in Hclaim. discriminate.
  - vm_compute. lia.
  - vm_compute. reflexivity.
  - vm_compute. reflexivity.
Qed.

(** C3, as stated, fails: the error does not determine the index of the
    offending record.  The same record raises the same error at index 0
    and at index 1. *)
Lemma C3_counterexample_message_without_index :
  ~ (exists index_of : error -> nat,
        forall (pre : list (string * string)) (label_str sentence : string),
          Forall Toy.ok_record pre ->
          length (PyStr.split label_str)
          <> length (PyStr.split (PyStr.lower sentence)) ->
          exists e, Toy.align_batch [pre ++ [(label_str, sentence)]] = inl e /\
                    index_of e = length pre).
Proof.
  intros [index_of Hclaim].
  destruct (Hclaim [] "B O" "Cats run fast") as (e0 & He0 & Hi0);
    [constructor | vm_compute; lia |].
  destruct (Hclaim [("O", "ok")] "B O" "Cats run fast") as (e1 & He1 & Hi1);
    [constructor; [eexists; vm_compute; reflexivity | constructor]
    | vm_compute; lia |].
  vm_compute in He0, He1. injection He0 as <-. injection He1 as <-.
  simpl in Hi0, Hi1. congruence.
Qed.

(** C10, as stated, fails: a label outside {B, I, O} that sits after the
    point where accumulation stops is never looked up, and the record is
    aligned without any error. *)
Lemma C10_counterexample_unknown_label_after_stop :
  ~ (forall (label_str sentence l : string),
        length (PyStr.split label_str)
        = length (PyStr.split (PyStr.lower sentence)) ->
        l ∈ PyStr.split label_str -> ~ valid_label l ->
        exists k, Toy.align label_str sentence = inl (KeyError k)).
Proof.
  intros Hclaim.
  destruct (Hclaim (Toy.tags 511 ["X"]) (Toy.sentence 511 ["b"]) "X")
    as [k Hk].
  - vm_compute. reflexivity.
  - apply (list_elem_of_lookup_2 _ 511%nat). vm_compute. reflexivity.
  - intros [H|[H|H]]; discriminate.
  - vm_compute in Hk. discriminate.
Qed.

(** The continuation rule on the words [a cats] labelled [O B]: the four
    subwords of [cats] get the labels B, I, I, I. *)
Lemma C2_continuation_rule_witness :
  (Toy.loop ([], []) [("a", "O")] = inr ([97], [2]) /\
   Z.of_nat (length [97]) <= max_length - 2) /\
  Toy.loop ([], []) ([("a", "O")] ++ [("cats", "B")])
  = inr ([97] ++ Toy.wids "cats", [2] ++ [0; 1; 1; 1]).
Proof.
  assert (Toy.loop ([], []) [("a", "O")] = inr ([97], [2])) as Hrun
    by (vm_compute; reflexivity).
  assert (Z.of_nat (length [97]) <= max_length - 2) as Hreach
    by (vm_compute; discriminate).
  split; [by split|].
  refine (proj1 (proj2 (C2_continuation_rule
                          Toy.lemmatize Toy.tokenize Toy.convert_token_to_id
                          [("a", "O")] "cats" "B" [97] [2] Hrun Hreach)
                   _ _) eq_refl).
  - vm_compute. lia.
  - vm_compute. discriminate.
Defined.

(** A record with 3 words and 2 labels, at index 1 of its file. *)
Lemma C3_mismatch_raises_witness :
  (Forall (Forall Toy.ok_record) [] /\ Forall Toy.ok_record [("O", "ok")] /\
   length (PyStr.split "B O") <> length (PyStr.split (PyStr.lower "Cats run fast"))) /\
  Toy.align_batch [[("O", "ok"); ("B O", "Cats run fast")]]
  = inl (ValueError "Mismatch: 2 labels but 3 words").
Proof.
  assert (Forall (Forall Toy.ok_record) []) as Hfs by constructor.
  assert (Forall Toy.ok_record [("O", "ok")]) as Hpre.
  { constructor; [|constructor]. eexists. vm_compute. reflexivity. }
  assert (length (PyStr.split "B O")
          <> length (PyStr.split (PyStr.lower "Cats run fast"))) as Hne
    by (vm_compute; lia).
  split; [by repeat split|].
  etrans.
  - exact (proj2 (C3_mismatch_raises
                    Toy.lemmatize Toy.tokenize Toy.convert_token_to_id 101 102 0
                    [] [] [("O", "ok")] [] "B O" "Cats run fast" Hfs Hpre Hne)).
  - vm_compute. reflexivity.
Defined.

(** 511 one-subword words and a two-subword word: 513 raw subwords. *)
Lemma truncation_token_content_witness :
  Z.of_nat (length (Toy.raw (PyStr.split (PyStr.lower (Toy.sentence 511 ["ab"])))))
  > max_length - 2 /\
  exists ex content,
    Toy.align (Toy.tags 511 ["B"]) (Toy.sentence 511 ["ab"]) = inr ex /\
    input_ids ex = [101] ++ content ++ [102] /\
    Z.of_nat (length content) = max_length - 2.
Proof.
  assert (Z.of_nat (length (Toy.raw (PyStr.split
            (PyStr.lower (Toy.sentence 511 ["ab"]))))) > max_length - 2) as Hraw
    by (vm_compute; reflexivity).
  split; [exact Hraw|].
  destruct (truncation_token_content
              Toy.lemmatize Toy.tokenize Toy.convert_token_to_id 101 102 0
              (Toy.tags 511 ["B"]) (Toy.sentence 511 ["ab"]) Hraw)
    as [Hcontent Htotal].
  destruct Htotal as [ex Hex].
  - vm_compute. reflexivity.
  - apply (bool_decide_unpack
             (Forall valid_label (PyStr.split (Toy.tags 511 ["B"])))).
    vm_compute. exact I.
  - destruct (Hcontent ex Hex) as (content & Hids & Hlen & _).
    exists ex, content.
    split; [exact Hex | split; [exact Hids | exact Hlen]].
Defined.

(** The unknown label [X] on the second word of a two-word record. *)
Lemma C10_label_lookup_witness :
  length (PyStr.split "B X") = length (PyStr.split (PyStr.lower "Cats run")) /\
  exists k, ~ valid_label k /\ Toy.align "B X" "Cats run" = inl (KeyError k).
Proof.
  assert (length (PyStr.split "B X")
          = length (PyStr.split (PyStr.lower "Cats run"))) as Heq
    by (vm_compute; reflexivity).
  split; [exact Heq|].
  refine (proj1 (C10_label_lookup
                   Toy.lemmatize Toy.tokenize Toy.convert_token_to_id 101 102 0
                   "B X" "Cats run" Heq)
            [("cats", "B")] "run" "X" [] _ _ _ _).
  - vm_compute. reflexivity.
  - vm_compute. discriminate.
  - vm_compute. discriminate.
  - intros [H|[H|H]]; discriminate.
Defined.

(** ** Derived metrics *)

Section MetricsProps.

Import Metrics.

Lemma true_div_Z_pos (a b : Z) :
  b > 0 ->
  true_div (inject_Z a) (inject_Z b) = inr (inject_Z a / inject_Z b)%Q.
Proof.
  intros Hb. unfold true_div.
  destruct (Qeq_bool (inject_Z b) 0) eqn:E; [|reflexivity].
  apply Qeq_bool_eq in E. unfold Qeq in E. simpl in E. lia.
Qed.

Lemma Qpositive_true (x : Q) : Qpositive x = true <-> (0 < x)%Q.
Proof.
  unfold Qpositive. rewrite negb_true_iff, <- not_true_iff_false, Qle_bool_iff.
  split; [apply Qnot_le_lt | apply Qlt_not_le].
Qed.

Lemma true_div_positive (a b : Q) :
  Qpositive b = true -> true_div a b = inr (a / b)%Q.
Proof.
  intros Hb%Qpositive_true. unfold true_div.
  destruct (Qeq_bool b 0) eqn:E; [|reflexivity].
  apply Qeq_bool_eq in E. rewrite E in Hb. by apply Qlt_irrefl in Hb.
Qed.

(** [a / b if b > 0 else 0] on ints never raises. *)
Lemma guarded_ratio (a b : Z) :
  exists q,
    (if b >? 0 then true_div (inject_Z a) (inject_Z b) else inr 0%Q) = inr q /\
    (b > 0 -> q = (inject_Z a / inject_Z b)%Q) /\
    (b <= 0 -> q = 0%Q).
Proof.
  destruct (Z.gtb_spec b 0) as [Hpos|Hle].
  - rewrite true_div_Z_pos by lia. eexists; split; [done|]. split; [done|lia].
  - exists 0%Q. split; [done|]. split; [lia|done].
Qed.

(** [2 * p * r / (p + r) if (p + r) > 0 else 0] never raises. *)
Lemma guarded_f1 (p r : Q) :
  exists q,
    (if Qpositive (p + r) then true_div (2 * p * r) (p + r) else inr 0%Q) = inr q /\
    ((0 < p + r)%Q -> q = (2 * p * r / (p + r))%Q) /\
    ((p + r <= 0)%Q -> q = 0%Q).
Proof.
  destruct (Qpositive (p + r)) eqn:E.
  - rewrite true_div_positive by done. eexists; split; [done|].
    split; [done|]. apply Qpositive_true in E. intros Hle.
    by apply Qlt_not_le in E.
  - exists 0%Q. split; [done|]. split; [|done].
    intros Hpos%Qpositive_true. congruence.
Qed.

Lemma ratio_bounds (a b : Z) :
  0 <= a <= b -> b > 0 -> (0 <= inject_Z a / inject_Z b <= 1)%Q.
Proof.
  intros Ha Hb. destruct b as [|b|b]; try lia.
  unfold Qle, Qdiv, Qmult, Qinv, inject_Z. simpl. lia.
Qed.

Lemma nonneg_sums (cm : confusion) :
  nonneg cm ->
  0 <= diag_sum cm <= sum cm /\
  (forall c, c = 0 \/ c = 1 \/ c = 2 ->
     0 <= true_positives cm c <= col_sum cm c /\
     true_positives cm c <= row_sum cm c).
Proof.
  intros H. unfold diag_sum, sum, row_sum, col_sum, true_positives.
  pose proof (H 0 0). pose proof (H 0 1). pose proof (H 0 2).
  pose proof (H 1 0). pose proof (H 1 1). pose proof (H 1 2).
  pose proof (H 2 0). pose proof (H 2 1). pose proof (H 2 2).
  split; [lia|]. intros c [->|[->| ->]]; lia.
Qed.

Lemma count_pair_nonneg (cm cm' : confusion) (t p : Z) :
  count_pair cm t p = inr cm' -> nonneg cm -> nonneg cm'.
Proof.
  unfold count_pair. intros Hc Hcm.
  destruct (negb _); [|by injection Hc as <-].
  destruct (tensor_index t), (tensor_index p); try done.
  injection Hc as <-. intros i j. specialize (Hcm i j).
  destruct (_ && _); lia.
Qed.

(** The counting loop only produces matrices of non-negative counts. *)
Lemma count_pairs_nonneg (pairs : list (Z * Z)) (cm cm' : confusion) :
  count_pairs cm pairs = inr cm' -> nonneg cm -> nonneg cm'.
Proof.
  revert cm. induction pairs as [|[t p] pairs IH]; intros cm Hc Hcm; simpl in Hc.
  - by injection Hc as <-.
  - destruct (count_pair cm t p) as [e|cm1] eqn:H1; [done|]. simpl in Hc.
    eapply IH; [done|]. by eapply count_pair_nonneg.
Qed.

(** C5: the derived accuracy is the trace of the confusion matrix
    divided by its total, lies in [0, 1], and is 0, with no error
    raised, when the total is 0; with diagonal 10, 5, 20 and total 40 it
    is 35/40 = 0.875. *)
Theorem C5_accuracy (cm : confusion) :
  nonneg cm ->
  exists acc,
    accuracy_of cm = inr acc /\
    (sum cm > 0 -> acc = (inject_Z (diag_sum cm) / inject_Z (sum cm))%Q) /\
    (sum cm = 0 -> acc = 0%Q) /\
    (0 <= acc <= 1)%Q /\
    (cm 0 0 = 10 -> cm 1 1 = 5 -> cm 2 2 = 20 -> sum cm = 40 ->
     (acc == 35 # 40)%Q /\ (acc == 0.875)%Q).
Proof.
  intros Hcm. unfold accuracy_of.
  destruct (guarded_ratio (diag_sum cm) (sum cm)) as (acc & -> & Hpos & Hzero).
  destruct (nonneg_sums cm Hcm) as [Hdiag _].
  exists acc. split; [done|]. split; [done|]. split; [intros; apply Hzero; lia|].
  split.
  - destruct (Z_le_gt_dec (sum cm) 0) as [Hle|Hgt].
    + rewrite Hzero by done. done.
    + rewrite Hpos by done. by apply ratio_bounds.
  - intros H0 H1 H2 Hsum. rewrite Hpos by lia.
    unfold diag_sum. rewrite H0, H1, H2, Hsum. done.
Qed.

Lemma class_metric_of_spec (cm : confusion) (c : Z) :
  exists m,
    class_metric_of cm c = inr m /\
    (true_positives cm c + false_positives cm c > 0 ->
     precision m = (inject_Z (true_positives cm c)
                    / inject_Z (true_positives cm c + false_positives cm c))%Q) /\
    (true_positives cm c + false_positives cm c = 0 -> precision m = 0%Q) /\
    (true_positives cm c + false_negatives cm c > 0 ->
     recall m = (inject_Z (true_positives cm c)
                 / inject_Z (true_positives cm c + false_negatives cm c))%Q) /\
    (true_positives cm c + false_negatives cm c = 0 -> recall m = 0%Q) /\
    ((0 < precision m + recall m)%Q ->
     f1 m = (2 * precision m * recall m / (precision m + recall m))%Q) /\
    ((precision m + recall m == 0)%Q -> f1 m = 0%Q).
Proof.
  unfold class_metric_of.
  destruct (guarded_ratio (true_positives cm c)
              (true_positives cm c + false_positives cm c))
    as (p & -> & Hp & Hp0).
  destruct (guarded_ratio (true_positives cm c)
              (true_positives cm c + false_negatives cm c))
    as (r & -> & Hr & Hr0).
  cbn [bind_err].
  destruct (guarded_f1 p r) as (f & -> & Hf & Hf0).
  cbn [bind_err]. eexists; split; [done|]. cbn [precision recall f1].
  repeat split; auto.
  - intros; apply Hp0; lia.
  - intros; apply Hr0; lia.
  - intros Heq. apply Hf0. rewrite Heq. done.
Qed.


(** *** The evaluation raises nothing on countable pairs *)

Lemma count_pair_total (cm : confusion) (tp : Z * Z) :
  countable_pair tp -> exists cm', count_pair cm tp.1 tp.2 = inr cm'.
Proof.
  destruct tp as [t p]. unfold countable_pair, count_pair, tensor_index. simpl.
  intros H.
  destruct (Z.eqb_spec t (-100)); [simpl; eauto|].
  destruct (Z.eqb_spec p (-100)); [simpl; eauto|]. simpl.
  destruct H as [?|[?|[Ht Hp]]]; [done..|].
  destruct (Z.leb_spec 0 t), (Z.ltb_spec t 3), (Z.leb_spec (-3) t),
    (Z.ltb_spec t 0); simpl; try lia;
    destruct (Z.leb_spec 0 p), (Z.ltb_spec p 3), (Z.leb_spec (-3) p),
      (Z.ltb_spec p 0); simpl; try lia; eauto.
Qed.

Lemma count_pairs_total (pairs : list (Z * Z)) (cm : confusion) :
  Forall countable_pair pairs -> exists cm', count_pairs cm pairs = inr cm'.
Proof.
  intros H. revert cm. induction H as [|[t p] pairs Htp _ IH]; intros cm; simpl.
  - eauto.
  - destruct (count_pair_total cm (t, p) Htp) as [cm1 H1]. simpl in H1.
    rewrite H1. cbn [bind_err]. apply IH.
Qed.

Lemma derive_total (cm : confusion) : exists res, derive cm = inr res.
Proof.
  unfold derive, accuracy_of.
  destruct (guarded_ratio (diag_sum cm) (sum cm)) as (acc & -> & _).
  cbn [bind_err class_metrics_of].
  destruct (class_metric_of_spec cm 0) as (m0 & -> & _).
  destruct (class_metric_of_spec cm 1) as (m1 & -> & _).
  destruct (class_metric_of_spec cm 2) as (m2 & -> & _).
  cbn [bind_err]. eauto.
Qed.

Lemma evaluate_total (pairs : list (Z * Z)) :
  Forall countable_pair pairs ->
  exists res, evaluate_token_classification pairs = inr res.
Proof.
  intros H. unfold evaluate_token_classification.
  destruct (count_pairs_total pairs zeros H) as [cm ->]. cbn [bind_err].
  apply derive_total.
Qed.

End MetricsProps.

(** The matrix with rows [10 2 1], [1 5 0], [1 0 20]: diagonal 10, 5, 20
    and 40 samples in all. *)
Lemma C5_accuracy_witness :
  Metrics.nonneg (Metrics.of_rows [[10; 2; 1]; [1; 5; 0]; [1; 0; 20]]) /\
  exists acc,
    Metrics.accuracy_of (Metrics.of_rows [[10; 2; 1]; [1; 5; 0]; [1; 0; 20]])
    = inr acc /\
    (acc == 0.875)%Q /\ (0 <= acc <= 1)%Q.
Proof.
  assert (Metrics.nonneg (Metrics.of_rows [[10; 2; 1]; [1; 5; 0]; [1; 0; 20]]))
    as Hcm.
  { intros i j. unfold Metrics.of_rows.
    destruct (Z.to_nat i) as [|[|[|[|?]]]], (Z.to_nat j) as [|[|[|[|?]]]];
      simpl; lia. }
  split; [exact Hcm|].
  destruct (C5_accuracy _ Hcm) as (acc & Hacc & _ & _ & Hbound & Hscenario).
  exists acc. split; [exact Hacc|]. split; [|exact Hbound].
  apply Hscenario; reflexivity.
Defined.

(** ** The training loop *)

Section TrainProps.

Import Train.

Context (tensor batch : Type)
        (pretrained_weights : string -> Z -> list (string * component * tensor))
        (DataLoader : list example -> Z -> error + list batch)
        (forward_loss : model tensor -> batch -> float)
        (predict : model tensor -> batch -> list (Z * Z))
        (adamw_update : optimizer -> model tensor -> batch -> param tensor -> tensor).

Local Abbreviation loaded := (from_pretrained tensor pretrained_weights).
Local Abbreviation accuracy_on := (evaluate_accuracy tensor batch predict).
Local Abbreviation epoch_of :=
  (run_epoch tensor batch DataLoader forward_loss predict adamw_update).
Local Abbreviation epochs_of :=
  (run_epochs tensor batch DataLoader forward_loss predict adamw_update).
Local Abbreviation setup_of := (setup tensor batch pretrained_weights DataLoader).
Local Abbreviation worker :=
  (train_loop_per_worker tensor batch pretrained_weights DataLoader
                         forward_loss predict adamw_update).

(** *** Which parameters the optimizer holds *)

Lemma trainable_loaded (name : string) (k : Z) :
  trainable_parameters tensor (loaded name k) = loaded name k.
Proof.
  unfold from_pretrained, trainable_parameters.
  induction (pretrained_weights name k) as [|w ws IH]; simpl; [done|].
  by rewrite IH.
Qed.

Lemma setup_holds_all (cfg : config) (examples : list example)
    (m : model tensor) (tl : list batch) (opt : optimizer) :
  setup_of cfg examples = inr (m, tl, opt) ->
  m = loaded (model_name cfg) (num_labels cfg) /\
  opt_params opt = map (pname tensor) m.
Proof.
  unfold setup. rewrite trainable_loaded.
  destruct (DataLoader examples (batch_size cfg)) as [e|tl']; [done|].
  cbn [bind_err]. unfold AdamW.
  destruct (loaded (model_name cfg) (num_labels cfg)) as [|p ps] eqn:Hm; [done|].
  cbn [bind_err]. intros H. injection H as <- <- <-. done.
Qed.

Lemma freeze_cell_spec (m : model tensor) (p : param tensor) :
  p ∈ freeze_cell tensor m ->
  requires_grad tensor p = match owner tensor p with
                           | distilbert => false
                           | classifier => true
                           end.
Proof.
  unfold freeze_cell, set_requires_grad. rewrite map_map.
  intros (q & -> & _)%list_elem_of_fmap.
  destruct q as [n [] g d]; reflexivity.
Qed.

(** After the freeze cell only head parameters would be handed to AdamW. *)
Lemma freeze_cell_trainable (m : model tensor) (p : param tensor) :
  p ∈ trainable_parameters tensor (freeze_cell tensor m) ->
  owner tensor p = classifier.
Proof.
  unfold trainable_parameters.
  intros Hin%list_elem_of_In%filter_In. destruct Hin as [Hin Hg].
  apply list_elem_of_In, freeze_cell_spec in Hin. rewrite Hg in Hin.
  by destruct (owner tensor p).
Qed.

Lemma lookup_map {A B : Type} (f : A -> B) (l : list A) (i : nat) :
  map f l !! i = f <$> (l !! i).
Proof. revert i. induction l as [|x l IH]; intros [|i]; simpl; auto. Qed.

(** A step leaves the parameters the optimizer does not hold untouched. *)
Lemma optimizer_step_frame (opt : optimizer) (m : model tensor) (b : batch)
    (i : nat) (p : param tensor) :
  m !! i = Some p -> held tensor opt p = false ->
  (optimizer_step tensor batch adamw_update opt m b).1 !! i = Some p.
Proof.
  intros Hp Hheld. unfold optimizer_step, model in *. cbn [fst].
  rewrite lookup_map, Hp. cbn. by rewrite Hheld.
Qed.

(** *** The report of an epoch *)

Lemma checkpoint_due_spec (rank : Z) (epoch : nat) (freq : Z) (due : bool) :
  checkpoint_due rank epoch freq = inr due ->
  (due = true <-> rank = 0 /\ freq <> 0 /\ Z.of_nat epoch mod freq = 0).
Proof.
  unfold checkpoint_due.
  destruct (Z.eqb_spec rank 0) as [->|Hrank].
  - destruct (Z.eqb_spec freq 0) as [->|Hfreq]; [done|].
    intros H. injection H as <-. rewrite Z.eqb_eq. tauto.
  - intros H. injection H as <-. split; [done|tauto].
Qed.

Lemma run_epoch_report (rank : Z) (cfg : config) (tl : list batch)
    (val_examples : list example) (epoch : nat) (m m' : model tensor)
    (opt opt' : optimizer) (r : report) :
  epoch_of rank cfg tl val_examples epoch m opt = inr (m', opt', r) ->
  report_ok rank cfg epoch r.
Proof.
  unfold run_epoch.
  destruct (fold_left _ tl _) as [[m1 opt1] epoch_loss].
  destruct (accuracy_on m1 tl) as [e|train_accuracy]; [done|]. cbn [bind_err].
  destruct (average_loss epoch_loss (length tl)) as [e|avg_loss]; [done|].
  cbn [bind_err].
  destruct (checkpoint_due rank epoch (checkpoint_freq cfg)) as [e|due] eqn:Hdue;
    [done|].
  apply checkpoint_due_spec in Hdue. cbn [bind_err].
  destruct due.
  - destruct (DataLoader val_examples (batch_size cfg)) as [e|vl]; [done|].
    cbn [bind_err].
    destruct (accuracy_on m1 vl) as [e|val_accuracy]; [done|]. cbn [bind_err].
    intros H. injection H as <- <- <-. unfold report_ok. cbn.
    split; [|done]. split; [intros _; by apply Hdue | done].
  - intros H. injection H as <- <- <-. unfold report_ok. cbn.
    split; [|done]. split; [done|]. intros H. by apply Hdue in H.
Qed.

Lemma run_epochs_reports (rank : Z) (cfg : config) (tl : list batch)
    (val_examples : list example) (epochs : list nat) (m : model tensor)
    (opt : optimizer) (reports : list report) :
  exists new,
    (epochs_of rank cfg tl val_examples epochs m opt reports).1 = reports ++ new /\
    forall i r, new !! i = Some r ->
      exists epoch, epochs !! i = Some epoch /\ report_ok rank cfg epoch r.
Proof.
  revert m opt reports.
  induction epochs as [|epoch epochs IH]; intros m opt reports; simpl.
  - exists []. rewrite app_nil_r. split; [done|]. intros i r Hi. done.
  - destruct (epoch_of rank cfg tl val_examples epoch m opt)
      as [e|[[m' opt'] r]] eqn:Hep.
    + exists []. rewrite app_nil_r. split; [done|]. intros i r Hi. done.
    + destruct (IH m' opt' (reports ++ [r])) as (new & -> & Hnew).
      exists (r :: new). rewrite <- app_assoc. split; [done|].
      intros [|i] r' Hi; simpl in *.
      * injection Hi as <-. exists epoch. split; [done|].
        by eapply run_epoch_report.
      * by apply Hnew.
Qed.

(** The [e]-th report of a worker is the report of epoch [e]. *)
Lemma worker_reports (rank : Z) (cfg : config)
    (train_data val_data : option (list (list example))) (e : nat) (r : report) :
  (worker rank cfg train_data val_data).1 !! e = Some r ->
  report_ok rank cfg e r.
Proof.
  unfold train_loop_per_worker.
  destruct train_data as [train_batches|], val_data as [val_batches|];
    try done.
  destruct (setup_of cfg (concat train_batches)) as [err|[[m tl] opt]];
    [done|].
  intros Hr.
  destruct (run_epochs_reports rank cfg tl (concat val_batches)
              (seq 0 (Z.to_nat (num_epochs cfg))) m opt [])
    as (new & Hnew & Hok).
  rewrite Hnew in Hr. simpl in Hr.
  destruct (Hok e r Hr) as (epoch & Hepoch & Hrep).
  apply lookup_seq in Hepoch as [-> _]. done.
Qed.

(** *** At most one checkpoint per epoch *)

Lemma NoDup_all_eq_length {A : Type} (a : A) (l : list A) :
  NoDup l -> (forall x, x ∈ l -> x = a) -> (length l <= 1)%nat.
Proof.
  intros Hnd Hall. destruct l as [|x [|y l]]; simpl; [lia..|].
  exfalso. apply NoDup_cons in Hnd as [Hx _]. apply Hx.
  rewrite (Hall x), <- (Hall y); [|apply elem_of_cons; right|];
    apply elem_of_cons; by left.
Qed.

(** C7: in any epoch, among workers of distinct ranks running one config,
    at most one reports a checkpoint; a worker that does has rank 0 and
    the epoch is on the cadence ([epoch mod checkpoint_freq = 0]); every
    worker of another rank reports its loss alone; and the test that
    guards the saving branch holds on rank 0 and on the cadence only. *)
Theorem C7_single_checkpoint (cfg : config)
    (shards : Z -> option (list (list example)) * option (list (list example)))
    (ranks : list Z) (e : nat) :
  NoDup ranks ->
  (length (List.filter
             (fun r => checkpoint_at (worker r cfg (shards r).1 (shards r).2) e)
             ranks) <= 1)%nat /\
  (forall r, checkpoint_at (worker r cfg (shards r).1 (shards r).2) e = true ->
     r = 0 /\ checkpoint_freq cfg <> 0 /\
     Z.of_nat e mod checkpoint_freq cfg = 0) /\
  (forall r rep, r <> 0 ->
     (worker r cfg (shards r).1 (shards r).2).1 !! e = Some rep ->
     exists loss, rep = ReportLoss loss) /\
  (forall r, checkpoint_due r e (checkpoint_freq cfg) = inr true ->
     r = 0 /\ checkpoint_freq cfg <> 0 /\
     Z.of_nat e mod checkpoint_freq cfg = 0).
Proof.
  intros Hnd.
  assert (forall r, checkpoint_at (worker r cfg (shards r).1 (shards r).2) e = true ->
            r = 0 /\ checkpoint_freq cfg <> 0 /\
            Z.of_nat e mod checkpoint_freq cfg = 0) as Honly.
  { intros r. unfold checkpoint_at.
    destruct ((worker r cfg (shards r).1 (shards r).2).1 !! e) as [rep|] eqn:Hrep;
      [|done].
    intros Hck. by apply (worker_reports _ _ _ _ _ _ Hrep). }
  split; [|split; [exact Honly|split]].
  - apply (NoDup_all_eq_length 0).
    + by apply NoDup_ListNoDup, List.NoDup_filter, NoDup_ListNoDup.
    + intros r [_ Hr]%list_elem_of_In%filter_In. by apply Honly.
  - intros r rep Hr Hrep.
    destruct (worker_reports _ _ _ _ _ _ Hrep) as (Hck & Hloss & _).
    exists (report_loss rep). apply Hloss.
    destruct (has_checkpoint rep); [|done].
    destruct Hck as [Hck _]. by destruct (Hck eq_refl).
  - intros r Hdue. by apply (checkpoint_due_spec _ _ _ _ Hdue).
Qed.

(** *** The loop never looks at the loss *)

Section Completion.

Hypothesis predict_countable :
  forall m b, Forall Metrics.countable_pair (predict m b).

Lemma accuracy_on_total (m : model tensor) (dl : list batch) :
  exists q, accuracy_on m dl = inr q.
Proof.
  unfold evaluate_accuracy.
  destruct (evaluate_total (flat_map (predict m) dl)) as [res ->].
  - induction dl as [|b dl IH]; simpl; [constructor|].
    apply Forall_app; split; [apply predict_countable | exact IH].
  - cbn [bind_err]. eauto.
Qed.

Lemma run_epoch_total (rank : Z) (cfg : config) (tl : list batch)
    (val_examples : list example) (epoch : nat) (m : model tensor)
    (opt : optimizer) :
  tl <> [] ->
  (rank = 0 -> checkpoint_freq cfg <> 0 /\
               exists vl, DataLoader val_examples (batch_size cfg) = inr vl) ->
  exists m' opt' r,
    epoch_of rank cfg tl val_examples epoch m opt = inr (m', opt', r).
Proof.
  intros Htl Hrank0. unfold run_epoch.
  destruct (fold_left _ tl _) as [[m1 opt1] epoch_loss].
  destruct (accuracy_on_total m1 tl) as [train_accuracy ->]. cbn [bind_err].
  destruct tl as [|b tl]; [done|]. cbn [length average_loss bind_err].
  unfold checkpoint_due.
  destruct (Z.eqb_spec rank 0) as [Hr|Hr]; [|cbn [bind_err]; eauto].
  destruct (Hrank0 Hr) as (Hfreq & vl & Hvl).
  destruct (Z.eqb_spec (checkpoint_freq cfg) 0); [done|]. cbn [bind_err].
  destruct (_ =? 0); [|eauto].
  rewrite Hvl. cbn [bind_err].
  destruct (accuracy_on_total m1 vl) as [val_accuracy ->]. cbn [bind_err].
  eauto.
Qed.

Lemma run_epochs_complete (rank : Z) (cfg : config) (tl : list batch)
    (val_examples : list example) (epochs : list nat) (m : model tensor)
    (opt : optimizer) (reports : list report) :
  tl <> [] ->
  (rank = 0 -> checkpoint_freq cfg <> 0 /\
               exists vl, DataLoader val_examples (batch_size cfg) = inr vl) ->
  exists new,
    epochs_of rank cfg tl val_examples epochs m opt reports
    = (reports ++ new, None) /\
    length new = length epochs.
Proof.
  intros Htl Hrank0. revert m opt reports.
  induction epochs as [|epoch epochs IH]; intros m opt reports; simpl.
  - exists []. by rewrite app_nil_r.
  - destruct (run_epoch_total rank cfg tl val_examples epoch m opt Htl Hrank0)
      as (m' & opt' & r & ->).
    destruct (IH m' opt' (reports ++ [r])) as (new & -> & Hlen).
    exists (r :: new). rewrite <- app_assoc. simpl. by rewrite Hlen.
Qed.

End Completion.

(** *** The loss a report carries *)






(** The optimizer the loop builds holds every parameter of the model it
    loads, and a freshly loaded model has no frozen parameter. *)
Lemma loaded_all_trainable (name : string) (k : Z) :
  trainable_parameters tensor (loaded name k) = loaded name k /\
  forall p, p ∈ loaded name k -> requires_grad tensor p = true.
Proof.
  split; [apply trainable_loaded|].
  unfold from_pretrained. intros p Hin%list_elem_of_In%in_map_iff.
  destruct Hin as (w & <- & _). reflexivity.
Qed.

End TrainProps.

(** ** The training loop on the concrete model *)

(** Three workers at epoch 0: only rank 0 creates a checkpoint. *)
Lemma C7_single_checkpoint_witness :
  NoDup ToyTrain.ranks /\
  (length (List.filter
             (fun r => Train.checkpoint_at
                         (ToyTrain.train_loop_per_worker r ToyTrain.cfg
                            (ToyTrain.shards r).1 (ToyTrain.shards r).2) 0)
             ToyTrain.ranks) <= 1)%nat /\
  Train.checkpoint_at
    (ToyTrain.train_loop_per_worker 0 ToyTrain.cfg
       (ToyTrain.shards 0).1 (ToyTrain.shards 0).2) 0 = true.
Proof.
  assert (NoDup ToyTrain.ranks) as Hnd.
  { apply (bool_decide_unpack (NoDup ToyTrain.ranks)). vm_compute. exact I. }
  split; [exact Hnd|]. split.
  - exact (proj1 (C7_single_checkpoint Z example
                    ToyTrain.pretrained_weights ToyTrain.DataLoader
                    ToyTrain.forward_loss ToyTrain.predict ToyTrain.adamw_update
                    ToyTrain.cfg ToyTrain.shards ToyTrain.ranks 0%nat Hnd)).
  - vm_compute. reflexivity.
Defined.

(** C8 (defect in the code): [train_loop_per_worker] loads its own model
    and never freezes it.  Every parameter of a freshly loaded model
    requires a gradient, so the list handed to AdamW is the whole model;
    on the concrete model the optimizer holds the base-encoder parameter
    and the first optimizer step changes its value from 1 to 2. *)
Theorem C8_base_encoder_is_trained :
  (forall (tensor : Type)
          (pretrained_weights : string -> Z -> list (string * Train.component * tensor))
          (name : string) (k : Z),
     Train.trainable_parameters tensor
       (Train.from_pretrained tensor pretrained_weights name k)
     = Train.from_pretrained tensor pretrained_weights name k) /\
  exists m tl opt,
    ToyTrain.setup ToyTrain.cfg [ToyTrain.ex; ToyTrain.ex] = inr (m, tl, opt) /\
    m !! 0%nat
    = Some (Train.Param Z "distilbert.embeddings.word_embeddings.weight"
                        Train.distilbert true 1) /\
    "distilbert.embeddings.word_embeddings.weight" ∈ Train.opt_params opt /\
    (ToyTrain.optimizer_step opt m ToyTrain.ex).1 !! 0%nat
    = Some (Train.Param Z "distilbert.embeddings.word_embeddings.weight"
                        Train.distilbert true 2).
Proof.
  split; [intros; apply trainable_loaded|].
  destruct (ToyTrain.setup ToyTrain.cfg [ToyTrain.ex; ToyTrain.ex])
    as [e|[[m tl] opt]] eqn:Hsetup; [by vm_compute in Hsetup|].
  exists m, tl, opt. split; [reflexivity|].
  vm_compute in Hsetup. injection Hsetup as <- <- <-.
  split; [reflexivity|]. split; [|vm_compute; reflexivity].
  apply elem_of_cons. by left.
Qed.



(** * Further properties *)

(** ** [str.split], [str.join] and [str.lower] *)

Section PyStrProps.

Import PyStr.

Lemma append_cons (c : ascii) (a b : string) :
  String c a +:+ b = String c (a +:+ b).
Proof. reflexivity. Qed.

Lemma append_nil_l (s : string) : "" +:+ s = s.
Proof. reflexivity. Qed.

Lemma append_nil_r (s : string) : s +:+ "" = s.
Proof.
  induction s as [|c s IH]; [done|]. rewrite append_cons. f_equal. exact IH.
Qed.

Lemma append_assoc (a b c : string) : (a +:+ b) +:+ c = a +:+ (b +:+ c).
Proof.
  induction a as [|x a IH]; [done|]. rewrite !append_cons. f_equal. exact IH.
Qed.

Lemma eqb_nonempty (s : string) : s <> "" -> String.eqb s "" = false.
Proof. intros H. apply String.eqb_neq. done. Qed.

Lemma no_space_nil : Reader.no_space "".
Proof. constructor. Qed.

Lemma no_space_cons (c : ascii) (s : string) :
  Reader.no_space (String c s) <-> is_space c = false /\ Reader.no_space s.
Proof.
  unfold Reader.no_space. simpl.
  apply (Forall_cons (fun x => is_space x = false)).
Qed.

Lemma no_space_app (a b : string) :
  Reader.no_space a -> Reader.no_space b -> Reader.no_space (a +:+ b).
Proof.
  intros Ha Hb. induction a as [|c a IH]; [done|]. rewrite append_cons.
  apply no_space_cons in Ha as [Hc Ha]. apply no_space_cons. auto.
Qed.

(** A run of non-whitespace is read into the word being collected. *)
Lemma split_go_token (w cur rest : string) :
  Reader.no_space w -> split_go cur (w +:+ rest) = split_go (cur +:+ w) rest.
Proof.
  revert cur. induction w as [|c w IH]; intros cur Hw.
  - by rewrite append_nil_r.
  - apply no_space_cons in Hw as [Hc Hw]. rewrite append_cons.
    cbn [split_go]. rewrite Hc, IH by done.
    rewrite append_assoc. reflexivity.
Qed.

Lemma split_go_end (cur : string) : cur <> "" -> split_go cur "" = [cur].
Proof. intros H. cbn [split_go]. by rewrite eqb_nonempty. Qed.

Lemma split_go_space (cur rest : string) :
  cur <> "" -> split_go cur (" " +:+ rest) = cur :: split_go "" rest.
Proof.
  intros H. rewrite append_cons, append_nil_l. cbn [split_go].
  change (is_space " ") with true. cbn. by rewrite eqb_nonempty.
Qed.

(** Joining tokens with single spaces and splitting again gives the
    tokens back. *)
Lemma split_join (ws : list string) :
  Forall Reader.token ws -> split (join ws) = ws.
Proof.
  unfold split. induction 1 as [|w ws [Hne Hw] Hws IH]; [done|].
  destruct ws as [|w' ws].
  - cbn [join]. rewrite <- (append_nil_r w) at 1.
    rewrite split_go_token, append_nil_l by done. by apply split_go_end.
  - change (join (w :: w' :: ws)) with (w +:+ " " +:+ join (w' :: ws)).
    rewrite split_go_token, append_nil_l by done.
    rewrite split_go_space by done. by rewrite IH.
Qed.

Lemma split_go_tokens (s cur : string) :
  Reader.no_space cur -> Forall Reader.token (split_go cur s).
Proof.
  revert cur. induction s as [|c s IH]; intros cur Hcur; cbn [split_go].
  - destruct (String.eqb cur "") eqn:E; [constructor|].
    apply String.eqb_neq in E. constructor; [done|constructor].
  - destruct (is_space c) eqn:Hc.
    + destruct (String.eqb cur "") eqn:E; [apply IH, no_space_nil|].
      apply String.eqb_neq in E.
      constructor; [done | apply IH, no_space_nil].
    + apply IH, no_space_app; [done|]. apply no_space_cons. split; [done|].
      apply no_space_nil.
Qed.

(** Every field [str.split] returns is a token. *)
Lemma split_tokens (s : string) : Forall Reader.token (split s).
Proof. apply split_go_tokens, no_space_nil. Qed.

Lemma is_space_lower_char (c : ascii) : is_space (lower_char c) = is_space c.
Proof. destruct c as [[] [] [] [] [] [] [] []]; reflexivity. Qed.

Lemma lower_app (a b : string) : lower (a +:+ b) = lower a +:+ lower b.
Proof.
  induction a as [|c a IH]; [done|]. rewrite append_cons. cbn [lower].
  rewrite append_cons. f_equal. exact IH.
Qed.

Lemma eqb_lower_empty (s : string) : String.eqb (lower s) "" = String.eqb s "".
Proof. by destruct s. Qed.

Lemma split_go_lower (s cur : string) :
  split_go (lower cur) (lower s) = map lower (split_go cur s).
Proof.
  revert cur. induction s as [|c s IH]; intros cur; cbn [lower split_go].
  - rewrite eqb_lower_empty. by destruct (String.eqb cur "").
  - rewrite is_space_lower_char, eqb_lower_empty.
    destruct (is_space c), (String.eqb cur ""); cbn [map];
      rewrite <- ?(IH ""), <- ?IH, ?lower_app; reflexivity.
Qed.

(** Lower-casing a sentence lower-cases its words and keeps their number. *)
Lemma split_lower (s : string) : split (lower s) = map lower (split s).
Proof. apply (split_go_lower s ""). Qed.

End PyStrProps.

(** ** The corpus reader *)

Section ReaderProps.

Import Reader.

Lemma last_in {A : Type} (P : A -> Prop) (l : list A) (d : A) :
  l <> [] -> Forall P l -> P (List.last l d).
Proof.
  induction l as [|x [|y l] IH]; intros Hne Hl; [done| |].
  - by apply Forall_cons in Hl as [Hx _].
  - apply Forall_cons in Hl as [_ Hl]. by apply IH.
Qed.

Lemma last_default {A : Type} (l : list A) (d d' : A) :
  l <> [] -> List.last l d = List.last l d'.
Proof.
  induction l as [|x [|y l] IH]; intros Hne; [done..|]. by apply IH.
Qed.

Lemma read_tsv_data_finish (file_lines : list string) (fetch_limit : Z) :
  _read_tsv_data file_lines fetch_limit
  = finish fetch_limit (read_lines fetch_limit 0 (State [] [] [] 0) file_lines).
Proof. reflexivity. Qed.

Lemma invariant_init (fetch_limit : Z) : invariant fetch_limit (State [] [] [] 0).
Proof. unfold invariant. simpl. repeat split; try constructor; lia. Qed.

(** One line: the only exception is the one of an empty line, and the
    invariant is kept. *)
Lemma read_line_invariant (fetch_limit : Z) (lineIdx : nat) (st : state)
    (line : string) :
  invariant fetch_limit st ->
  match read_line fetch_limit lineIdx st line with
  | inl e => e = LineIndexError /\ line = ""
  | inr (_, st') => line <> "" /\ invariant fetch_limit st'
  end.
Proof.
  intros (Hw & Hl & Hlen & Hc & Hmax & Hrec). unfold read_line.
  destruct line as [|c line]; [done|]. cbn [first_line].
  pose proof (split_tokens (before_linebreak (String c line))) as Htok.
  destruct (PyStr.split (before_linebreak (String c line))) as [|first rest] eqn:E.
  - destruct (Z.gtb_spec (st_counter st) (fetch_limit - 1)); cbn beta iota.
    { split; [done|]. by repeat split. }
    rewrite <- Hlen, Nat.eqb_refl. cbn [negb].
    destruct (Nat.eqb_spec (length (st_words st)) 0) as [Hz|Hnz];
      cbn [negb]; cbn beta iota.
    { split; [done|]. by repeat split. }
    split; [done|]. unfold invariant. cbn.
    split; [constructor|]. split; [constructor|]. split; [done|].
    split; [|split].
    + rewrite length_app. simpl. lia.
    + lia.
    + apply Forall_app. split; [done|]. constructor; [|constructor].
      exists (st_words st), (st_labels st).
      repeat split; try done. by destruct (st_words st).
  - split; [done|]. unfold invariant. cbn.
    pose proof Htok as Hfirst. apply Forall_cons in Hfirst as [Hfirst _].
    repeat split; try done.
    + apply Forall_app. split; [done|]. by constructor.
    + apply Forall_app. split; [done|]. constructor; [|constructor].
      apply (last_in token (first :: rest) first); [discriminate | exact Htok].
    + rewrite !length_app. simpl. lia.
Qed.

Lemma read_lines_invariant (fetch_limit : Z) (file_lines : list string)
    (lineIdx : nat) (st : state) :
  invariant fetch_limit st ->
  match read_lines fetch_limit lineIdx st file_lines with
  | inl e => e = LineIndexError /\ "" ∈ file_lines
  | inr st' => invariant fetch_limit st'
  end.
Proof.
  revert lineIdx st.
  induction file_lines as [|line rest IH]; intros lineIdx st Hinv; simpl; [done|].
  pose proof (read_line_invariant fetch_limit lineIdx st line Hinv) as Hline.
  destruct (read_line fetch_limit lineIdx st line) as [e|[[] st']].
  - destruct Hline as [-> ->]. split; [done|]. apply elem_of_cons. by left.
  - destruct Hline as [_ Hinv'].
    specialize (IH (S lineIdx) st' Hinv').
    destruct (read_lines fetch_limit (S lineIdx) st' rest); [|done].
    destruct IH as [-> Hin]. split; [done|]. apply elem_of_cons. by right.
  - by destruct Hline.
Qed.

Lemma read_lines_total (fetch_limit : Z) (file_lines : list string)
    (lineIdx : nat) (st : state) :
  invariant fetch_limit st ->
  Forall (fun line => line <> "") file_lines ->
  exists st', read_lines fetch_limit lineIdx st file_lines = inr st'.
Proof.
  intros Hinv Hne.
  pose proof (read_lines_invariant fetch_limit file_lines lineIdx st Hinv) as H.
  destruct (read_lines fetch_limit lineIdx st file_lines) as [e|st']; [|eauto].
  destruct H as [_ Hin]. rewrite Forall_forall in Hne. by destruct (Hne "" Hin).
Qed.

Lemma built_record_split (rec : string * string) :
  built_record rec ->
  PyStr.split rec.2 <> [] /\
  length (PyStr.split rec.1) = length (PyStr.split rec.2) /\
  rec.1 = PyStr.join (PyStr.split rec.1) /\
  rec.2 = PyStr.join (PyStr.split rec.2).
Proof.
  intros (ws & ls & Hne & Hws & Hls & Hlen & ->). simpl.
  rewrite !split_join by done. done.
Qed.

Lemma read_tsv_data_built (file_lines : list string) (fetch_limit : Z)
    (recs : list (string * string)) :
  _read_tsv_data file_lines fetch_limit = inr recs ->
  (length recs <= Z.to_nat fetch_limit)%nat /\ Forall built_record recs.
Proof.
  rewrite read_tsv_data_finish.
  pose proof (read_lines_invariant fetch_limit file_lines 0 _
                (invariant_init fetch_limit)) as Hinv.
  destruct (read_lines fetch_limit 0 (State [] [] [] 0) file_lines) as [e|st];
    [done|].
  destruct Hinv as (Hw & Hl & Hlen & Hc & Hmax & Hrec). cbn [finish].
  destruct (Nat.eqb_spec (length (st_words st)) 0) as [Hz|Hnz]; cbn [negb andb].
  - intros H. injection H as <-. split; [lia|done].
  - destruct (Z.ltb_spec (st_counter st) (fetch_limit - 1)); intros Hres;
      injection Hres as <-.
    + split; [rewrite length_app; simpl; lia|].
      apply Forall_app. split; [done|].
      constructor; [|constructor].
      exists (st_words st), (st_labels st).
      repeat split; try done. by destruct (st_words st).
    + split; [lia|done].
Qed.

(** X2: whatever the file holds, the reader returns at most [fetch_limit]
    records, and in every record the sentence has at least one word, the
    label string has as many labels as the sentence has words, and both
    are their fields joined by single spaces. *)
Theorem read_tsv_data_records (file_lines : list string) (fetch_limit : Z)
    (recs : list (string * string)) :
  _read_tsv_data file_lines fetch_limit = inr recs ->
  (length recs <= Z.to_nat fetch_limit)%nat /\
  Forall (fun rec =>
            PyStr.split rec.2 <> [] /\
            length (PyStr.split rec.1) = length (PyStr.split rec.2) /\
            rec.1 = PyStr.join (PyStr.split rec.1) /\
            rec.2 = PyStr.join (PyStr.split rec.2)) recs.
Proof.
  intros [Hlen Hrec]%read_tsv_data_built. split; [done|].
  eapply Forall_impl; [exact Hrec|]. apply built_record_split.
Qed.

(** X3: the assertion of the reader never fails.  The only exception it
    can raise is the [IndexError] of an empty line, which the iteration
    over a file never yields; on lines that are all non-empty it returns. *)
Theorem read_tsv_data_errors (file_lines : list string) (fetch_limit : Z) :
  (forall e, _read_tsv_data file_lines fetch_limit = inl e ->
     e = LineIndexError /\ "" ∈ file_lines) /\
  (Forall (fun line => line <> "") file_lines ->
   exists recs, _read_tsv_data file_lines fetch_limit = inr recs).
Proof.
  rewrite read_tsv_data_finish. split.
  - intros e.
    pose proof (read_lines_invariant fetch_limit file_lines 0 _
                  (invariant_init fetch_limit)) as Hinv.
    destruct (read_lines fetch_limit 0 (State [] [] [] 0) file_lines) as [e'|st];
      cbn [finish].
    + intros H. by injection H as <-.
    + by destruct (_ && _).
  - intros Hne.
    destruct (read_lines_total fetch_limit file_lines 0 _
                (invariant_init fetch_limit) Hne) as [st ->].
    cbn [finish]. destruct (_ && _); eauto.
Qed.

(** *** A corpus of separated sentences *)

Lemma read_line_sentence (fetch_limit : Z) (lineIdx : nat) (st : state)
    (line : string) :
  sentence_line line ->
  read_line fetch_limit lineIdx st line
  = inr (Continue,
         State (st_lines st) (st_words st ++ [line_word line])
               (st_labels st ++ [line_label line]) (st_counter st)).
Proof.
  intros [Hne Hblank]. unfold read_line, line_word, line_label, blank in *.
  destruct line as [|c line]; [done|]. cbn [first_line].
  destruct (PyStr.split (before_linebreak (String c line))) as [|first rest];
    [done|].
  cbn [hd]. by rewrite (last_default (first :: rest) first "").
Qed.

Lemma read_sentence (fetch_limit : Z) (sentence_lines rest : list string)
    (lineIdx : nat) (st : state) :
  Forall sentence_line sentence_lines ->
  read_lines fetch_limit lineIdx st (sentence_lines ++ rest)
  = read_lines fetch_limit (lineIdx + length sentence_lines)
      (State (st_lines st) (st_words st ++ map line_word sentence_lines)
             (st_labels st ++ map line_label sentence_lines) (st_counter st))
      rest.
Proof.
  intros Hs. revert lineIdx st.
  induction Hs as [|line s Hline _ IH]; intros lineIdx st.
  - simpl. rewrite !app_nil_r, Nat.add_0_r. by destruct st.
  - cbn [app read_lines]. rewrite read_line_sentence by done.
    rewrite IH. cbn [st_lines st_words st_labels st_counter map length].
    rewrite <- !app_assoc. simpl. f_equal. lia.
Qed.

Lemma read_line_separator (fetch_limit : Z) (lineIdx : nat) (st : state)
    (sep : string) :
  separator sep ->
  length (st_words st) = length (st_labels st) ->
  read_line fetch_limit lineIdx st sep
  = if st_counter st >? fetch_limit - 1 then inr (Break, st)
    else if negb (length (st_words st) =? 0)%nat
    then inr (Continue,
              State (st_lines st
                     ++ [(PyStr.join (st_labels st), PyStr.join (st_words st))])
                    [] [] (st_counter st + 1))
    else inr (Continue, st).
Proof.
  intros [Hne Hblank] Hlen. unfold read_line, blank in *.
  destruct sep as [|c sep]; [done|]. cbn [first_line]. rewrite Hblank.
  by rewrite <- Hlen, Nat.eqb_refl.
Qed.

Lemma corpus_run (fetch_limit : Z) (sep : string)
    (sentences : list (list string)) (trailing : list string) :
  separator sep ->
  Forall (fun s => s <> [] /\ Forall sentence_line s) sentences ->
  Forall sentence_line trailing ->
  forall (lineIdx : nat) (done_ : list (string * string)),
    finish fetch_limit
      (read_lines fetch_limit lineIdx
         (State done_ [] [] (Z.of_nat (length done_)))
         (corpus_lines sep sentences trailing))
    = inr (done_
           ++ take (Z.to_nat (fetch_limit - Z.of_nat (length done_)))
                   (map record_of sentences)
           ++ (if negb (length trailing =? 0)%nat
                  && (Z.of_nat (length done_ + length sentences)
                      <? fetch_limit - 1)
               then [record_of trailing] else [])).
Proof.
  intros Hsep Hsents Htrail.
  induction Hsents as [|s sentences [Hne Hs] _ IH]; intros lineIdx done_.
  - unfold corpus_lines. cbn [flat_map app map length].
    rewrite <- (app_nil_r trailing) at 1.
    rewrite read_sentence by done. cbn [read_lines finish].
    cbn [st_lines st_words st_labels st_counter app].
    rewrite length_map, take_nil, Nat.add_0_r. cbn [app].
    destruct (negb _ && _); [reflexivity|]. by rewrite app_nil_r.
  - unfold corpus_lines. cbn [flat_map].
    rewrite <- !app_assoc. rewrite read_sentence by done.
    cbn [app read_lines st_lines st_words st_labels st_counter].
    rewrite read_line_separator;
      [|done|cbn [st_words st_labels]; by rewrite !length_map].
    cbn [st_lines st_words st_labels st_counter].
    destruct (Z.gtb_spec (Z.of_nat (length done_)) (fetch_limit - 1)) as [Hfull|Hroom].
    + cbn [finish st_lines st_words st_labels st_counter].
      rewrite length_map.
      replace (Z.of_nat (length done_) <? fetch_limit - 1) with false
        by (symmetry; apply Z.ltb_ge; lia).
      rewrite andb_false_r.
      replace (Z.to_nat (fetch_limit - Z.of_nat (length done_))) with 0%nat by lia.
      cbn [take length].
      replace (Z.of_nat (length done_ + S (length sentences)) <? fetch_limit - 1)
        with false by (symmetry; apply Z.ltb_ge; lia).
      by rewrite andb_false_r, !app_nil_r.
    + rewrite length_map.
      destruct (Nat.eqb_spec (length s) 0) as [Hz|_]; [by destruct s|].
      cbn [negb].
      specialize (IH (lineIdx + length s + 1)%nat (done_ ++ [record_of s])).
      rewrite length_app in IH. cbn [length] in IH.
      replace (Z.of_nat (length done_ + 1)) with (Z.of_nat (length done_) + 1)
        in IH by lia.
      unfold corpus_lines in IH. unfold record_of at 1 in IH.
      replace (S (lineIdx + length s)) with (lineIdx + length s + 1)%nat by lia.
      rewrite IH. f_equal. rewrite <- app_assoc. f_equal.
      replace (Z.to_nat (fetch_limit - Z.of_nat (length done_)))
        with (S (Z.to_nat (fetch_limit - (Z.of_nat (length done_) + 1)))) by lia.
      cbn [map take length app].
      replace (length done_ + 1 + length sentences)%nat
        with (length done_ + S (length sentences))%nat by lia.
      reflexivity.
Qed.

(** X1: on a corpus whose sentences are each followed by one blank line,
    with possibly a last sentence that no blank line follows, the reader
    returns the first [fetch_limit] sentences in order, each as its labels
    and its words joined by spaces; the unterminated last sentence is
    returned only when fewer than [fetch_limit - 1] sentences precede it. *)
Theorem read_tsv_data_sentences (fetch_limit : Z) (sep : string)
    (sentences : list (list string)) (trailing : list string) :
  separator sep ->
  Forall (fun s => s <> [] /\ Forall sentence_line s) sentences ->
  Forall sentence_line trailing ->
  _read_tsv_data (corpus_lines sep sentences trailing) fetch_limit
  = inr (take (Z.to_nat fetch_limit) (map record_of sentences)
         ++ (if negb (length trailing =? 0)%nat
                && (Z.of_nat (length sentences) <? fetch_limit - 1)
             then [record_of trailing] else [])).
Proof.
  intros Hsep Hsents Htrail. rewrite read_tsv_data_finish.
  pose proof (corpus_run fetch_limit sep sentences trailing Hsep Hsents Htrail
                0%nat []) as Hrun.
  cbn [length app] in Hrun. rewrite Z.sub_0_r in Hrun. exact Hrun.
Qed.

End ReaderProps.

(** Decide that a concrete line is a line of a sentence. *)
Ltac sentence_line_tac :=
  split; [discriminate | unfold Reader.blank; vm_compute; discriminate].

(** The sample file: one terminated sentence and an unterminated one. *)
Lemma read_tsv_data_sentences_witness :
  (Reader.separator Reader.newline /\
   Forall (fun s => s <> [] /\ Forall Reader.sentence_line s)
     [["Cats B" +:+ Reader.newline; "run O" +:+ Reader.newline]] /\
   Forall Reader.sentence_line
     ["Aspirin B" +:+ Reader.newline; "works O" +:+ Reader.newline]) /\
  Reader._read_tsv_data Reader.sample_file 5
  = inr [("B O", "Cats run"); ("B O", "Aspirin works")] /\
  Reader._read_tsv_data Reader.sample_file 2 = inr [("B O", "Cats run")].
Proof.
  assert (Reader.separator Reader.newline) as Hsep.
  { split; [discriminate | reflexivity]. }
  assert (Forall (fun s => s <> [] /\ Forall Reader.sentence_line s)
            [["Cats B" +:+ Reader.newline; "run O" +:+ Reader.newline]]) as Hs.
  { constructor; [|constructor]. split; [discriminate|].
    constructor; [sentence_line_tac|]. constructor; [sentence_line_tac|].
    constructor. }
  assert (Forall Reader.sentence_line
            ["Aspirin B" +:+ Reader.newline; "works O" +:+ Reader.newline]) as Ht.
  { constructor; [sentence_line_tac|]. constructor; [sentence_line_tac|].
    constructor. }
  split; [by repeat split|]. split.
  - etrans; [exact (read_tsv_data_sentences 5 _ _ _ Hsep Hs Ht)|].
    vm_compute. reflexivity.
  - etrans; [exact (read_tsv_data_sentences 2 _ _ _ Hsep Hs Ht)|].
    vm_compute. reflexivity.
Defined.

(** Two blank lines in a row and a limit of one record. *)
Lemma read_tsv_data_records_witness :
  Reader._read_tsv_data
    ["Cats B" +:+ Reader.newline; Reader.newline; Reader.newline;
     "run O" +:+ Reader.newline; Reader.newline] 1
  = inr [("B", "Cats")] /\
  (length [("B", "Cats")] <= Z.to_nat 1)%nat.
Proof.
  assert (Reader._read_tsv_data
            ["Cats B" +:+ Reader.newline; Reader.newline; Reader.newline;
             "run O" +:+ Reader.newline; Reader.newline] 1
          = inr [("B", "Cats")]) as Hrun by (vm_compute; reflexivity).
  split; [exact Hrun|].
  exact (proj1 (read_tsv_data_records _ _ _ Hrun)).
Defined.

(** ** The aligner, beyond the word loop *)

Section AlignerExtras.

Context (lemmatize : string -> string) (tokenize : string -> list string)
        (convert_token_to_id : string -> Z)
        (cls_token_id sep_token_id pad_token_id : Z).

Local Abbreviation wids := (word_ids lemmatize tokenize convert_token_to_id).
Local Abbreviation raw := (raw_ids lemmatize tokenize convert_token_to_id).
Local Abbreviation body := (loop_body lemmatize tokenize convert_token_to_id).
Local Abbreviation loop := (align_loop lemmatize tokenize convert_token_to_id).
Local Abbreviation fin := (finalize cls_token_id sep_token_id pad_token_id).
Local Abbreviation record :=
  (align_record lemmatize tokenize convert_token_to_id
                cls_token_id sep_token_id pad_token_id).
Local Abbreviation wlabels := (word_labels lemmatize tokenize).
Local Abbreviation clabels := (content_labels lemmatize tokenize).
Local Abbreviation budget := (Z.to_nat (max_length - 2)).

Lemma raw_cons (w : string) (ws : list string) :
  raw (w :: ws) = wids w ++ raw ws.
Proof. reflexivity. Qed.

Lemma content_labels_cons (w l : string) (pairs : list (string * string)) :
  clabels ((w, l) :: pairs) = wlabels w l ++ clabels pairs.
Proof. reflexivity. Qed.

Lemma loop_fit (pairs : list (string * string)) (st : loop_state) :
  Forall (fun p => valid_label p.2) pairs ->
  Z.of_nat (length (st.1 ++ raw pairs.*1)) <= max_length - 2 ->
  loop st pairs = inr (st.1 ++ raw pairs.*1, st.2 ++ clabels pairs).
Proof.
  intros Hv. revert st.
  induction Hv as [|[w l] pairs Hl _ IH]; intros [ids labs] Hfit.
  - simpl. by rewrite !app_nil_r.
  - rewrite fmap_cons, raw_cons, content_labels_cons in *.
    cbn [fst snd align_loop] in *.
    apply valid_label_lookup in Hl as [l0 Hl].
    rewrite app_assoc in Hfit.
    destruct (decide (tokenize (lemmatize w) = [])) as [Hnil|Hne].
    + rewrite (body_skip _ _ _ _ _ _ Hnil).
      rewrite (wids_nil _ _ _ _ Hnil), app_nil_r in Hfit.
      rewrite IH by done. cbn [fst snd].
      unfold word_labels. rewrite (wids_nil _ _ _ _ Hnil), Hnil. done.
    + assert (Z.of_nat (length (ids ++ wids w)) <= max_length - 2) as Hw.
      { rewrite length_app in Hfit. lia. }
      rewrite (body_fit _ _ _ _ _ _ _ _ Hne Hl Hw).
      rewrite IH by done. cbn [fst snd]. rewrite <- !app_assoc.
      unfold word_labels. rewrite Hl, wids_length.
      destruct (tokenize (lemmatize w)) as [|t ts]; [done|].
      replace (length (t :: ts) - 1)%nat with (length ts)
        by (cbn [length]; lia).
      reflexivity.
Qed.

Lemma word_labels_length (w l : string) :
  valid_label l -> length (wlabels w l) = length (wids w).
Proof.
  intros [l0 Hl]%valid_label_lookup. unfold word_labels.
  rewrite Hl, wids_length.
  destruct (tokenize (lemmatize w)); simpl; [done|].
  by rewrite length_replicate.
Qed.

Lemma content_labels_length (pairs : list (string * string)) :
  Forall (fun p => valid_label p.2) pairs ->
  length (clabels pairs) = length (raw pairs.*1).
Proof.
  induction 1 as [|[w l] pairs Hl _ IH]; [done|].
  rewrite fmap_cons, raw_cons, content_labels_cons, !length_app, IH.
  f_equal. by apply word_labels_length.
Qed.

(** Markers and padding when nothing is cut. *)
Lemma fin_fit (ids labs : list Z) :
  Z.of_nat (length ids) <= max_length - 2 ->
  fin (ids, labs)
  = Example (([cls_token_id] ++ ids ++ [sep_token_id])
               ++ replicate (budget - length ids) pad_token_id)
            (replicate (length ids + 2) 1
               ++ replicate (budget - length ids) 0)
            (([-100] ++ labs ++ [-100])
               ++ replicate (budget - length ids) (-100)).
Proof.
  intros Hfit. unfold finalize. case_gtb; [lia|].
  assert (length ([cls_token_id] ++ ids ++ [sep_token_id]) = (length ids + 2)%nat)
    as Hlen by (rewrite !length_app; simpl; lia).
  rewrite Hlen.
  case_gtb.
  - replace (Z.to_nat (max_length - Z.of_nat (length ids + 2)))
      with (budget - length ids)%nat by (unfold max_length in *; lia).
    reflexivity.
  - replace (budget - length ids)%nat with 0%nat by (unfold max_length in *; lia).
    simpl replicate at 2 4 5. by rewrite !app_nil_r.
Qed.

(** X5: in every example the aligner produces, truncated or not, the
    token ids are the begin marker, the first [max_length - 2] raw subword
    ids, the end marker and then padding, and the attention mask is 1 on
    markers and content and 0 on the padding; neither depends on the
    labels. *)
Theorem align_record_tokens (label_str sentence : string) (ex : example) :
  record label_str sentence = inr ex ->
  input_ids ex
  = ([cls_token_id]
       ++ take budget (raw (PyStr.split (PyStr.lower sentence)))
       ++ [sep_token_id])
      ++ replicate
           (budget - length (take budget (raw (PyStr.split (PyStr.lower sentence)))))
           pad_token_id /\
  attention_mask ex
  = replicate
      (length (take budget (raw (PyStr.split (PyStr.lower sentence)))) + 2) 1
      ++ replicate
           (budget - length (take budget (raw (PyStr.split (PyStr.lower sentence)))))
           0.
Proof.
  intros Hrec.
  destruct (decide (length (PyStr.split label_str)
                    = length (PyStr.split (PyStr.lower sentence)))) as [Heq|Hne];
    [|by rewrite record_mismatch in Hrec].
  rewrite record_aligned in Hrec by done.
  destruct (loop _ _) as [e|st] eqn:Hrun; [done|].
  injection Hrec as <-. destruct st as [ids labs].
  apply loop_ids in Hrun as [[rest Hpre] Hall]. simpl in Hpre, Hall.
  rewrite fst_zip in Hpre, Hall by lia.
  destruct (Z_le_gt_dec (Z.of_nat (length ids)) (max_length - 2)) as [Hfit|Hlong].
  - rewrite <- Hall by done. rewrite fin_fit by done.
    rewrite take_ge by lia. done.
  - rewrite fin_truncated by done. cbn [input_ids attention_mask].
    rewrite Hpre, take_app_le by lia.
    rewrite length_take.
    replace (budget - budget `min` length ids)%nat with 0%nat by lia.
    replace (budget `min` length ids + 2)%nat with (Z.to_nat max_length)
      by (unfold max_length in *; lia).
    simpl replicate at 1 3. by rewrite !app_nil_r.
Qed.

(** X6: a record with equal counts, labels in {B, I, O} and at most
    [max_length - 2] raw subwords is aligned without error into the
    markers, all its subword ids and padding; its labels are the ignore
    value on the markers and the padding and, in between, one label per
    subword: the word's label on its first subword and the continuation
    label on the others. *)
Theorem align_record_fit (label_str sentence : string) :
  length (PyStr.split label_str) = length (PyStr.split (PyStr.lower sentence)) ->
  Forall valid_label (PyStr.split label_str) ->
  Z.of_nat (length (raw (PyStr.split (PyStr.lower sentence)))) <= max_length - 2 ->
  record label_str sentence
  = inr (Example
           (([cls_token_id] ++ raw (PyStr.split (PyStr.lower sentence))
               ++ [sep_token_id])
              ++ replicate
                   (budget - length (raw (PyStr.split (PyStr.lower sentence))))
                   pad_token_id)
           (replicate (length (raw (PyStr.split (PyStr.lower sentence))) + 2) 1
              ++ replicate
                   (budget - length (raw (PyStr.split (PyStr.lower sentence))))
                   0)
           (([-100]
               ++ clabels (zip (PyStr.split (PyStr.lower sentence))
                               (PyStr.split label_str))
               ++ [-100])
              ++ replicate
                   (budget - length (raw (PyStr.split (PyStr.lower sentence))))
                   (-100))) /\
  length (clabels (zip (PyStr.split (PyStr.lower sentence))
                       (PyStr.split label_str)))
  = length (raw (PyStr.split (PyStr.lower sentence))).
Proof.
  intros Heq Hvalid Hfit.
  assert (Forall (fun p => valid_label p.2)
            (zip (PyStr.split (PyStr.lower sentence)) (PyStr.split label_str)))
    as Hv by by apply Forall_zip_snd.
  assert ((zip (PyStr.split (PyStr.lower sentence)) (PyStr.split label_str)).*1
          = PyStr.split (PyStr.lower sentence)) as Hfst
    by (apply fst_zip; lia).
  split.
  - rewrite record_aligned by done.
    rewrite loop_fit; [|done|by rewrite Hfst].
    cbn [fst snd app]. rewrite Hfst. by rewrite fin_fit.
  - by rewrite content_labels_length, Hfst.
Qed.

Lemma count_occ_replicate_ne (n : nat) (x y : Z) :
  x <> y -> count_occ Z.eq_dec (replicate n x) y = 0%nat.
Proof.
  intros Hne. induction n as [|n IH]; simpl; [done|].
  destruct (Z.eq_dec x y); [done|exact IH].
Qed.

Lemma word_labels_begin (w l : string) :
  valid_label l ->
  count_occ Z.eq_dec (wlabels w l) 0
  = if String.eqb l "B" && negb (length (tokenize (lemmatize w)) =? 0)%nat
    then 1%nat else 0%nat.
Proof.
  unfold word_labels.
  intros [->|[->| ->]];
    [rewrite label_to_int_B | rewrite label_to_int_I | rewrite label_to_int_O];
    destruct (tokenize (lemmatize w)) as [|t ts]; try reflexivity;
    cbn [String.eqb Ascii.eqb Bool.eqb andb negb length Nat.eqb count_occ];
    unfold continuation_id; cbn [String.eqb Ascii.eqb Bool.eqb];
    destruct (Z.eq_dec _ 0) as [?|?]; try done;
    by rewrite count_occ_replicate_ne.
Qed.

Lemma content_labels_begin (pairs : list (string * string)) :
  Forall (fun p => valid_label p.2) pairs ->
  count_occ Z.eq_dec (clabels pairs) 0 = begin_words lemmatize tokenize pairs.
Proof.
  unfold begin_words.
  induction 1 as [|[w l] pairs Hl _ IH]; [done|].
  rewrite content_labels_cons, count_occ_app, IH, word_labels_begin by done.
  cbn [List.filter fst snd].
  by destruct (String.eqb l "B" && _).
Qed.

(** X7: in the labels of a record that fits (equal counts, labels in
    {B, I, O}, at most [max_length - 2] raw subwords) the id of B occurs
    exactly once for every word labelled B that has a subword, however
    many subwords the words have. *)
Theorem align_record_begin_count (label_str sentence : string) :
  length (PyStr.split label_str) = length (PyStr.split (PyStr.lower sentence)) ->
  Forall valid_label (PyStr.split label_str) ->
  Z.of_nat (length (raw (PyStr.split (PyStr.lower sentence)))) <= max_length - 2 ->
  exists ex,
    record label_str sentence = inr ex /\
    count_occ Z.eq_dec (labels ex) 0
    = begin_words lemmatize tokenize
        (zip (PyStr.split (PyStr.lower sentence)) (PyStr.split label_str)).
Proof.
  intros Heq Hvalid Hfit.
  assert (Forall (fun p => valid_label p.2)
            (zip (PyStr.split (PyStr.lower sentence)) (PyStr.split label_str)))
    as Hv by by apply Forall_zip_snd.
  assert ((zip (PyStr.split (PyStr.lower sentence)) (PyStr.split label_str)).*1
          = PyStr.split (PyStr.lower sentence)) as Hfst
    by (apply fst_zip; lia).
  rewrite record_aligned by done.
  rewrite loop_fit; [|done|by rewrite Hfst].
  cbn [fst snd app]. rewrite Hfst, fin_fit by done.
  eexists; split; [reflexivity|]. cbn [labels].
  rewrite !count_occ_app, content_labels_begin by done.
  rewrite count_occ_replicate_ne by done. simpl. lia.
Qed.

(** X8: when accumulation stops inside a word (the content before it has
    [n <= max_length - 2] subwords, with it more than [max_length - 2]),
    the example still has [max_length] token ids but its label sequence
    has [min (n + 1) (max_length - 2) + 2] entries: only the first label
    of the word that crosses the limit is kept. *)
Theorem align_record_truncated_labels (label_str sentence : string)
    (pre suf : list (string * string)) (w l : string) (ids labs : list Z)
    (l0 : Z) :
  length (PyStr.split label_str) = length (PyStr.split (PyStr.lower sentence)) ->
  zip (PyStr.split (PyStr.lower sentence)) (PyStr.split label_str)
  = pre ++ (w, l) :: suf ->
  loop ([], []) pre = inr (ids, labs) ->
  Z.of_nat (length ids) <= max_length - 2 ->
  label_to_int !! l = Some l0 ->
  Z.of_nat (length (ids ++ wids w)) > max_length - 2 ->
  exists ex,
    record label_str sentence = inr ex /\
    Z.of_nat (length (input_ids ex)) = max_length /\
    Z.of_nat (length (labels ex))
    = Z.min (Z.of_nat (length ids) + 1) (max_length - 2) + 2 /\
    labels ex = [-100] ++ take budget (labs ++ [l0]) ++ [-100].
Proof.
  intros Heq Hzip Hrun Hn Hl Hover.
  assert (tokenize (lemmatize w) <> []) as Hne.
  { intros Hnil. rewrite (wids_nil _ _ _ _ Hnil), app_nil_r in Hover. lia. }
  assert (length labs = length ids) as Hsync.
  { apply (loop_sync _ _ _ _ _ _ Hrun); simpl; [done | lia]. }
  rewrite record_aligned, Hzip by done.
  rewrite (loop_app _ _ _ pre _ _ _ Hrun) by (simpl; lia).
  cbn [align_loop]. rewrite (body_break _ _ _ _ _ _ _ _ Hne Hl Hover).
  eexists; split; [reflexivity|].
  rewrite fin_truncated by done. cbn [input_ids labels].
  rewrite length_app in Hover.
  split; [|split; [|reflexivity]].
  - rewrite !length_app, length_take, length_app. cbn [length].
    unfold max_length in *. lia.
  - rewrite !length_app, length_take, length_app. cbn [length].
    unfold max_length in *. lia.
Qed.

Lemma loop_error_inv (pairs : list (string * string)) (st : loop_state)
    (e : error) :
  loop st pairs = inl e ->
  exists w l, (w, l) ∈ pairs /\ tokenize (lemmatize w) <> [] /\
              ~ valid_label l /\ e = KeyError l.
Proof.
  revert st. induction pairs as [|[w l] pairs IH]; intros st Hrun; [done|].
  cbn [align_loop] in Hrun.
  destruct (body st w l) as [e'|[[] st']] eqn:Hb.
  - injection Hrun as <-. apply body_error_inv in Hb as (-> & Hl & Hne).
    exists w, l. split; [apply elem_of_cons; by left | done].
  - destruct (IH _ Hrun) as (w' & l' & Hin & H).
    exists w', l'. split; [apply elem_of_cons; by right | done].
  - done.
Qed.

Lemma record_error_inv (label_str sentence : string) (e : error) :
  record label_str sentence = inl e ->
  (length (PyStr.split label_str) <> length (PyStr.split (PyStr.lower sentence)) /\
   e = ValueError (mismatch_message
                     (length (PyStr.split label_str))
                     (length (PyStr.split (PyStr.lower sentence))))) \/
  (length (PyStr.split label_str) = length (PyStr.split (PyStr.lower sentence)) /\
   exists w l,
     (w, l) ∈ zip (PyStr.split (PyStr.lower sentence)) (PyStr.split label_str) /\
     tokenize (lemmatize w) <> [] /\ ~ valid_label l /\ e = KeyError l).
Proof.
  intros Hrec.
  destruct (decide (length (PyStr.split label_str)
                    = length (PyStr.split (PyStr.lower sentence)))) as [Heq|Hne].
  - right. split; [done|]. rewrite record_aligned in Hrec by done.
    destruct (loop _ _) as [e'|st] eqn:Hrun; [|done].
    injection Hrec as <-. by eapply loop_error_inv.
  - left. split; [done|]. rewrite record_mismatch in Hrec by done.
    by injection Hrec as <-.
Qed.

(** X9: the aligner raises nothing but its two input errors.  A record
    fails either with the mismatch [ValueError], exactly when its counts
    differ, or with the [KeyError] of a label outside {B, I, O} that
    belongs to a word with at least one subword. *)
Theorem align_record_errors (label_str sentence : string) (e : error) :
  record label_str sentence = inl e ->
  (length (PyStr.split label_str) <> length (PyStr.split (PyStr.lower sentence)) /\
   e = ValueError (mismatch_message
                     (length (PyStr.split label_str))
                     (length (PyStr.split (PyStr.lower sentence))))) \/
  (length (PyStr.split label_str) = length (PyStr.split (PyStr.lower sentence)) /\
   exists w l,
     (w, l) ∈ zip (PyStr.split (PyStr.lower sentence)) (PyStr.split label_str) /\
     tokenize (lemmatize w) <> [] /\ ~ valid_label l /\ e = KeyError l).
Proof. apply record_error_inv. Qed.

(** *** The batch *)

Local Abbreviation file :=
  (align_file lemmatize tokenize convert_token_to_id
              cls_token_id sep_token_id pad_token_id).
Local Abbreviation files :=
  (align_files lemmatize tokenize convert_token_to_id
               cls_token_id sep_token_id pad_token_id).
Local Abbreviation batch :=
  (lemmatize_tokenize_and_align_labels lemmatize tokenize convert_token_to_id
     cls_token_id sep_token_id pad_token_id).
Local Abbreviation ok_record :=
  (aligns lemmatize tokenize convert_token_to_id
          cls_token_id sep_token_id pad_token_id).

(** The index bound by [enumerate] has no effect. *)
Lemma file_index (recs : list (string * string)) (i j : nat) (acc : list example) :
  file i recs acc = file j recs acc.
Proof.
  revert i j acc. induction recs as [|[ls s] recs IH]; intros i j acc; [done|].
  cbn [align_file]. destruct (record ls s); [done|]. apply IH.
Qed.

Lemma file_app (a b : list (string * string)) (i : nat) (acc : list example) :
  file i (a ++ b) acc
  = match file i a acc with
    | inl e => inl e
    | inr acc' => file 0 b acc'
    end.
Proof.
  revert i acc. induction a as [|[ls s] a IH]; intros i acc.
  - cbn [app align_file]. apply file_index.
  - cbn [app align_file]. destruct (record ls s); [done|]. apply IH.
Qed.

Lemma files_concat (fs : list (list (string * string))) (acc : list example) :
  files fs acc = file 0 (concat fs) acc.
Proof.
  revert acc. induction fs as [|f fs IH]; intros acc; [done|].
  cbn [align_files concat]. rewrite file_app.
  destruct (file 0 f acc); [done|]. apply IH.
Qed.

Lemma file_success (recs : list (string * string)) (i : nat)
    (acc out : list example) :
  file i recs acc = inr out <->
  exists exs, out = acc ++ exs /\
              Forall2 (fun rec ex => record rec.1 rec.2 = inr ex) recs exs.
Proof.
  revert i acc. induction recs as [|[ls s] recs IH]; intros i acc;
    cbn [align_file].
  - split.
    + intros H. injection H as <-. exists []. by rewrite app_nil_r.
    + intros (exs & -> & Hall). apply Forall2_nil_inv_l in Hall as ->.
      by rewrite app_nil_r.
  - destruct (record ls s) as [e|ex] eqn:Hrec.
    + split; [done|]. intros (exs & _ & Hall).
      apply Forall2_cons_inv_l in Hall as (ex & exs' & Hex & _ & _).
      simpl in Hex. congruence.
    + rewrite IH. split.
      * intros (exs & -> & Hall). exists (ex :: exs).
        rewrite <- app_assoc. split; [done|]. by constructor.
      * intros (exs & -> & Hall).
        apply Forall2_cons_inv_l in Hall as (ex' & exs' & Hex & Hall & ->).
        simpl in Hex. rewrite Hrec in Hex. injection Hex as <-.
        exists exs'. by rewrite <- app_assoc.
Qed.

Lemma file_failure (recs : list (string * string)) (i : nat)
    (acc : list example) (e : error) :
  file i recs acc = inl e <->
  exists pre rec suf, recs = pre ++ rec :: suf /\ Forall ok_record pre /\
                      record rec.1 rec.2 = inl e.
Proof.
  revert i acc. induction recs as [|[ls s] recs IH]; intros i acc;
    cbn [align_file].
  - split; [done|]. intros (pre & rec & suf & H & _). by destruct pre.
  - destruct (record ls s) as [e'|ex] eqn:Hrec.
    + split.
      * intros H. injection H as <-. exists [], (ls, s), recs. by repeat split.
      * intros (pre & rec & suf & Heq & Hpre & Hfail).
        destruct pre as [|p pre]; simpl in Heq; injection Heq as ? ?; subst.
        -- simpl in Hfail. congruence.
        -- apply Forall_cons in Hpre as [[ex Hex] _]. simpl in Hex. congruence.
    + rewrite IH. split.
      * intros (pre & rec & suf & -> & Hpre & Hfail).
        exists ((ls, s) :: pre), rec, suf. split; [done|]. split; [|done].
        constructor; [|done]. by exists ex.
      * intros (pre & rec & suf & Heq & Hpre & Hfail).
        destruct pre as [|p pre]; simpl in Heq; injection Heq as ? ?; subst.
        -- simpl in Hfail. congruence.
        -- apply Forall_cons in Hpre as [_ Hpre]. by exists pre, rec, suf.
Qed.

Lemma batch_concat (fs : list (list (string * string))) :
  batch fs = file 0 (concat fs) [].
Proof. apply files_concat. Qed.

(** X10: the aligner flattens its batch.  Its result does not depend on
    how the records are grouped into files, and it succeeds exactly with
    the examples of all records, one per record and in order. *)
Theorem align_batch_examples (fs : list (list (string * string))) :
  batch fs = batch [concat fs] /\
  forall exs,
    batch fs = inr exs <->
    Forall2 (fun rec ex => record rec.1 rec.2 = inr ex) (concat fs) exs.
Proof.
  split.
  - rewrite !batch_concat. cbn [concat]. by rewrite app_nil_r.
  - intros exs. rewrite batch_concat, file_success. split.
    + by intros (exs' & -> & Hall).
    + intros Hall. by exists exs.
Qed.

(** X11: a batch fails exactly with the error of its first record that
    does not align; the records after it are not looked at. *)
Theorem align_batch_first_error (fs : list (list (string * string))) (e : error) :
  batch fs = inl e <->
  exists pre rec suf,
    concat fs = pre ++ rec :: suf /\ Forall ok_record pre /\
    record rec.1 rec.2 = inl e.
Proof. rewrite batch_concat. apply file_failure. Qed.

(** *** Reader and aligner together *)

Lemma built_record_counts (rec : string * string) :
  Reader.built_record rec ->
  length (PyStr.split rec.1) = length (PyStr.split (PyStr.lower rec.2)).
Proof.
  intros (ws & ls & Hne & Hws & Hls & Hlen & ->). cbn [fst snd].
  rewrite split_lower, length_map, !split_join by done. done.
Qed.

(** X4: the records the reader returns never trip the aligner's count
    check.  Aligning them can only fail with the [KeyError] of a label
    outside {B, I, O}; when all their labels are in {B, I, O} it succeeds
    with one example per record. *)
Theorem read_then_align (file_lines : list string) (fetch_limit : Z)
    (recs : list (string * string)) :
  Reader._read_tsv_data file_lines fetch_limit = inr recs ->
  (forall e, batch [recs] = inl e -> exists l, e = KeyError l /\ ~ valid_label l) /\
  (Forall (fun rec => Forall valid_label (PyStr.split rec.1)) recs ->
   exists exs, batch [recs] = inr exs /\ length exs = length recs).
Proof.
  intros [_ Hbuilt]%read_tsv_data_built. split.
  - intros e. rewrite batch_concat. cbn [concat]. rewrite app_nil_r.
    intros (pre & rec & suf & -> & _ & Hfail)%file_failure.
    apply Forall_app in Hbuilt as [_ Hbuilt].
    apply Forall_cons in Hbuilt as [Hrec _].
    apply built_record_counts in Hrec.
    apply record_error_inv in Hfail as [[Hne _]|(_ & w & l & _ & _ & Hl & ->)];
      [done|eauto].
  - intros Hvalid.
    assert (exists exs,
              Forall2 (fun rec ex => record rec.1 rec.2 = inr ex) recs exs)
      as [exs Hall].
    { induction recs as [|rec recs IH]; [by exists []|].
      apply Forall_cons in Hbuilt as [Hrec Hbuilt].
      apply Forall_cons in Hvalid as [Hv Hvalid].
      destruct (IH Hbuilt Hvalid) as [exs Hexs].
      apply built_record_counts in Hrec.
      destruct (loop_total lemmatize tokenize convert_token_to_id
                  (zip (PyStr.split (PyStr.lower rec.2)) (PyStr.split rec.1))
                  ([], [])) as [st Hst]; [by apply Forall_zip_snd|].
      exists (fin st :: exs). constructor; [|done].
      rewrite record_aligned by done. by rewrite Hst. }
    exists exs. split.
    + rewrite batch_concat. cbn [concat]. rewrite app_nil_r.
      apply file_success. by exists exs.
    + symmetry. by eapply Forall2_length.
Qed.

End AlignerExtras.

(** ** The aligner and the reader on concrete input *)

Lemma align_record_tokens_witness :
  exists ex,
    Toy.align "B O" "Cats run" = inr ex /\
    input_ids ex
    = ([101] ++ [99; 97; 116; 115; 114; 117; 110] ++ [102]) ++ replicate 503 0 /\
    attention_mask ex = replicate 9 1 ++ replicate 503 0.
Proof.
  destruct (Toy.align "B O" "Cats run") as [e|ex] eqn:Hrun;
    [by vm_compute in Hrun|].
  exists ex. split; [reflexivity|].
  destruct (align_record_tokens Toy.lemmatize Toy.tokenize
              Toy.convert_token_to_id 101 102 0 _ _ _ Hrun) as [Hids Hmask].
  split.
  - etrans; [exact Hids|]. vm_compute. reflexivity.
  - etrans; [exact Hmask|]. vm_compute. reflexivity.
Defined.

Lemma align_record_fit_witness :
  (length (PyStr.split "B O") = length (PyStr.split (PyStr.lower "Cats run")) /\
   Forall valid_label (PyStr.split "B O") /\
   Z.of_nat (length (Toy.raw (PyStr.split (PyStr.lower "Cats run"))))
   <= max_length - 2) /\
  exists ex,
    Toy.align "B O" "Cats run" = inr ex /\
    labels ex = ([-100] ++ [0; 1; 1; 1; 2; 2; 2] ++ [-100]) ++ replicate 503 (-100).
Proof.
  assert (length (PyStr.split "B O")
          = length (PyStr.split (PyStr.lower "Cats run"))) as Heq
    by (vm_compute; reflexivity).
  assert (Forall valid_label (PyStr.split "B O")) as Hvalid.
  { apply (bool_decide_unpack (Forall valid_label (PyStr.split "B O"))).
    vm_compute. exact I. }
  assert (Z.of_nat (length (Toy.raw (PyStr.split (PyStr.lower "Cats run"))))
          <= max_length - 2) as Hfit by (vm_compute; discriminate).
  split; [by repeat split|].
  eexists. split.
  - exact (proj1 (align_record_fit Toy.lemmatize Toy.tokenize
                    Toy.convert_token_to_id 101 102 0 _ _ Heq Hvalid Hfit)).
  - vm_compute. reflexivity.
Defined.

Lemma align_record_begin_count_witness :
  (length (PyStr.split "B O") = length (PyStr.split (PyStr.lower "Cats run")) /\
   Forall valid_label (PyStr.split "B O") /\
   Z.of_nat (length (Toy.raw (PyStr.split (PyStr.lower "Cats run"))))
   <= max_length - 2) /\
  exists ex,
    Toy.align "B O" "Cats run" = inr ex /\
    count_occ Z.eq_dec (labels ex) 0 = 1%nat.
Proof.
  assert (length (PyStr.split "B O")
          = length (PyStr.split (PyStr.lower "Cats run"))) as Heq
    by (vm_compute; reflexivity).
  assert (Forall valid_label (PyStr.split "B O")) as Hvalid.
  { apply (bool_decide_unpack (Forall valid_label (PyStr.split "B O"))).
    vm_compute. exact I. }
  assert (Z.of_nat (length (Toy.raw (PyStr.split (PyStr.lower "Cats run"))))
          <= max_length - 2) as Hfit by (vm_compute; discriminate).
  split; [by repeat split|].
  destruct (align_record_begin_count Toy.lemmatize Toy.tokenize
              Toy.convert_token_to_id 101 102 0 _ _ Heq Hvalid Hfit)
    as (ex & Hex & Hcount).
  exists ex. split; [exact Hex|].
  etrans; [exact Hcount|]. vm_compute. reflexivity.
Defined.

(** 508 one-subword words, then a three-subword word. *)
Lemma align_record_truncated_labels_witness :
  (length (PyStr.split (Toy.tags 508 ["B"]))
   = length (PyStr.split (PyStr.lower (Toy.sentence 508 ["abc"]))) /\
   zip (PyStr.split (PyStr.lower (Toy.sentence 508 ["abc"])))
       (PyStr.split (Toy.tags 508 ["B"]))
   = replicate 508 ("a", "O") ++ ("abc", "B") :: [] /\
   Toy.loop ([], []) (replicate 508 ("a", "O"))
   = inr (replicate 508 97, replicate 508 2) /\
   Z.of_nat (length (replicate 508 97)) <= max_length - 2 /\
   label_to_int !! "B" = Some 0 /\
   Z.of_nat (length (replicate 508 97 ++ Toy.wids "abc")) > max_length - 2) /\
  exists ex,
    Toy.align (Toy.tags 508 ["B"]) (Toy.sentence 508 ["abc"]) = inr ex /\
    Z.of_nat (length (input_ids ex)) = 512 /\
    Z.of_nat (length (labels ex)) = 511.
Proof.
  assert (length (PyStr.split (Toy.tags 508 ["B"]))
          = length (PyStr.split (PyStr.lower (Toy.sentence 508 ["abc"])))) as H1
    by (vm_compute; reflexivity).
  assert (zip (PyStr.split (PyStr.lower (Toy.sentence 508 ["abc"])))
              (PyStr.split (Toy.tags 508 ["B"]))
          = replicate 508 ("a", "O") ++ ("abc", "B") :: []) as H2
    by (vm_compute; reflexivity).
  assert (Toy.loop ([], []) (replicate 508 ("a", "O"))
          = inr (replicate 508 97, replicate 508 2)) as H3
    by (vm_compute; reflexivity).
  assert (Z.of_nat (length (replicate 508 97)) <= max_length - 2) as H4
    by (vm_compute; discriminate).
  assert (Z.of_nat (length (replicate 508 97 ++ Toy.wids "abc"))
          > max_length - 2) as H6 by (vm_compute; reflexivity).
  split; [split; [exact H1|]; split; [exact H2|]; split; [exact H3|];
          split; [exact H4|]; split; [exact label_to_int_B | exact H6]|].
  destruct (align_record_truncated_labels Toy.lemmatize Toy.tokenize
              Toy.convert_token_to_id 101 102 0 _ _ _ _ _ _ _ _ _
              H1 H2 H3 H4 label_to_int_B H6)
    as (ex & Hex & Hids & Hlabs & _).
  exists ex. split; [exact Hex|]. split; [exact Hids|].
  etrans; [exact Hlabs|]. vm_compute. reflexivity.
Defined.

Lemma align_record_errors_witness :
  Toy.align "B X" "Cats run" = inl (KeyError "X") /\
  ((length (PyStr.split "B X") <> length (PyStr.split (PyStr.lower "Cats run")) /\
    KeyError "X"
    = ValueError (mismatch_message
                    (length (PyStr.split "B X"))
                    (length (PyStr.split (PyStr.lower "Cats run"))))) \/
   (length (PyStr.split "B X") = length (PyStr.split (PyStr.lower "Cats run")) /\
    exists w l,
      (w, l) ∈ zip (PyStr.split (PyStr.lower "Cats run")) (PyStr.split "B X") /\
      Toy.tokenize (Toy.lemmatize w) <> [] /\ ~ valid_label l /\
      KeyError "X" = KeyError l)).
Proof.
  assert (Toy.align "B X" "Cats run" = inl (KeyError "X")) as Hrun
    by (vm_compute; reflexivity).
  split; [exact Hrun|].
  exact (align_record_errors Toy.lemmatize Toy.tokenize
           Toy.convert_token_to_id 101 102 0 _ _ _ Hrun).
Defined.

(** The sample file, read and aligned. *)
Lemma read_then_align_witness :
  Reader._read_tsv_data Reader.sample_file 5
  = inr [("B O", "Cats run"); ("B O", "Aspirin works")] /\
  exists exs,
    Toy.align_batch [[("B O", "Cats run"); ("B O", "Aspirin works")]] = inr exs /\
    length exs = 2%nat.
Proof.
  assert (Reader._read_tsv_data Reader.sample_file 5
          = inr [("B O", "Cats run"); ("B O", "Aspirin works")]) as Hread
    by (vm_compute; reflexivity).
  split; [exact Hread|].
  apply (proj2 (read_then_align Toy.lemmatize Toy.tokenize
                  Toy.convert_token_to_id 101 102 0 _ _ _ Hread)).
  apply (bool_decide_unpack
           (Forall (fun rec => Forall valid_label (PyStr.split rec.1))
                   [("B O", "Cats run"); ("B O", "Aspirin works")])).
  vm_compute. exact I.
Defined.

(** ** What the evaluation measures *)

Section MetricsExtras.

Import Metrics MetricsSpec.

Lemma tally_cons (test : Z * Z -> bool) (tp : Z * Z) (pairs : list (Z * Z)) :
  tally test (tp :: pairs)
  = (if counted tp && test tp then 1 else 0) + tally test pairs.
Proof.
  unfold tally. cbn [List.filter].
  destruct (counted tp && test tp); cbn [length]; lia.
Qed.

Lemma tally_nil (test : Z * Z -> bool) : tally test [] = 0.
Proof. reflexivity. Qed.

(** An ignored pair leaves the matrix alone; a pair of class indices adds
    one to its cell. *)
Lemma count_pair_plain (cm : confusion) (tp : Z * Z) :
  plain_pair tp ->
  exists cm',
    count_pair cm tp.1 tp.2 = inr cm' /\
    forall i j, cm' i j = cm i j + (if counted tp && cell i j tp then 1 else 0).
Proof.
  destruct tp as [t p]. unfold plain_pair, count_pair, counted, cell. cbn [fst snd].
  intros H.
  destruct (Z.eqb_spec t (-100)) as [->|Ht].
  { exists cm. split; [done|]. intros i j. cbn. lia. }
  destruct (Z.eqb_spec p (-100)) as [->|Hp].
  { exists cm. split; [done|]. intros i j. cbn. lia. }
  destruct H as [?|[?|[Hti Hpi]]]; [done..|]. cbn [orb negb andb].
  unfold tensor_index.
  destruct (Z.leb_spec 0 t); [|lia]. destruct (Z.ltb_spec t 3); [|lia].
  destruct (Z.leb_spec 0 p); [|lia]. destruct (Z.ltb_spec p 3); [|lia].
  cbn [andb]. eexists. split; [reflexivity|]. intros i j.
  rewrite (Z.eqb_sym t i), (Z.eqb_sym p j).
  destruct (i =? t), (j =? p); cbn; lia.
Qed.

Lemma count_pairs_plain (pairs : list (Z * Z)) (cm : confusion) :
  Forall plain_pair pairs ->
  exists cm',
    count_pairs cm pairs = inr cm' /\
    forall i j, cm' i j = cm i j + tally (cell i j) pairs.
Proof.
  intros H. revert cm. induction H as [|[t p] pairs Htp _ IH]; intros cm.
  - exists cm. split; [done|]. intros i j. rewrite tally_nil. lia.
  - destruct (count_pair_plain cm (t, p) Htp) as (cm1 & H1 & Hcell1).
    cbn [fst snd] in H1. cbn [count_pairs]. rewrite H1. cbn [bind_err].
    destruct (IH cm1) as (cm' & -> & Hcell).
    exists cm'. split; [done|]. intros i j.
    rewrite Hcell, Hcell1, tally_cons. lia.
Qed.

(** Case analysis on one plain pair in a sum of tallies. *)
Ltac hide_tallies :=
  repeat match goal with
         | |- context [tally ?f ?l] =>
             let n := fresh "n" in set (n := tally f l) in *; clearbody n
         end.

Ltac tally_step :=
  match goal with
  | Htp : plain_pair (?t, ?p) |- _ =>
      rewrite !tally_cons; hide_tallies;
      unfold plain_pair in Htp; cbn [fst snd] in Htp;
      unfold counted, cell, correct, predicted, actual, any; cbn [fst snd];
      destruct Htp as [->|[->|[Ht Hp]]];
      [ cbn; lia
      | rewrite !orb_true_r; cbn; lia
      | assert (t = 0 \/ t = 1 \/ t = 2) as [->|[->| ->]] by lia;
        assert (p = 0 \/ p = 1 \/ p = 2) as [->|[->| ->]] by lia;
        cbn; lia ]
  end.

Lemma tally_all_cells (pairs : list (Z * Z)) :
  Forall plain_pair pairs ->
  tally (cell 0 0) pairs + tally (cell 0 1) pairs + tally (cell 0 2) pairs
  + (tally (cell 1 0) pairs + tally (cell 1 1) pairs + tally (cell 1 2) pairs)
  + (tally (cell 2 0) pairs + tally (cell 2 1) pairs + tally (cell 2 2) pairs)
  = tally any pairs.
Proof.
  induction 1 as [|[t p] pairs Htp _ IH]; [done|]. tally_step.
Qed.

Lemma tally_diagonal (pairs : list (Z * Z)) :
  Forall plain_pair pairs ->
  tally (cell 0 0) pairs + tally (cell 1 1) pairs + tally (cell 2 2) pairs
  = tally correct pairs.
Proof.
  induction 1 as [|[t p] pairs Htp _ IH]; [done|]. tally_step.
Qed.

Lemma tally_column (c : Z) (pairs : list (Z * Z)) :
  c = 0 \/ c = 1 \/ c = 2 ->
  Forall plain_pair pairs ->
  tally (cell 0 c) pairs + tally (cell 1 c) pairs + tally (cell 2 c) pairs
  = tally (predicted c) pairs.
Proof.
  intros Hc. induction 1 as [|[t p] pairs Htp _ IH]; [done|].
  destruct Hc as [->|[->| ->]]; tally_step.
Qed.

Lemma tally_row (c : Z) (pairs : list (Z * Z)) :
  c = 0 \/ c = 1 \/ c = 2 ->
  Forall plain_pair pairs ->
  tally (cell c 0) pairs + tally (cell c 1) pairs + tally (cell c 2) pairs
  = tally (actual c) pairs.
Proof.
  intros Hc. induction 1 as [|[t p] pairs Htp _ IH]; [done|].
  destruct Hc as [->|[->| ->]]; tally_step.
Qed.

Lemma count_pairs_sums (pairs : list (Z * Z)) (cm : confusion) :
  Forall plain_pair pairs ->
  count_pairs zeros pairs = inr cm ->
  sum cm = tally any pairs /\
  diag_sum cm = tally correct pairs /\
  (forall c, c = 0 \/ c = 1 \/ c = 2 ->
     true_positives cm c = tally (cell c c) pairs /\
     col_sum cm c = tally (predicted c) pairs /\
     row_sum cm c = tally (actual c) pairs).
Proof.
  intros Hplain Hrun.
  destruct (count_pairs_plain pairs zeros Hplain) as (cm' & Hrun' & Hcell).
  rewrite Hrun in Hrun'. injection Hrun' as <-.
  unfold sum, diag_sum, row_sum, col_sum, true_positives.
  split; [|split].
  - rewrite !Hcell. unfold zeros. rewrite <- tally_all_cells by done. lia.
  - rewrite !Hcell. unfold zeros. rewrite <- tally_diagonal by done. lia.
  - intros c Hc. rewrite !Hcell. unfold zeros.
    rewrite <- tally_column, <- tally_row by done. lia.
Qed.

Lemma evaluate_derive (pairs : list (Z * Z)) (res : results) :
  evaluate_token_classification pairs = inr res ->
  exists cm, count_pairs zeros pairs = inr cm /\
             accuracy_of cm = inr (accuracy res) /\
             class_metrics_of cm [0; 1; 2] = inr (class_metrics res).
Proof.
  unfold evaluate_token_classification, derive.
  destruct (count_pairs zeros pairs) as [e|cm]; [done|]. cbn [bind_err].
  destruct (accuracy_of cm) as [e|acc] eqn:Hacc; [done|]. cbn [bind_err].
  destruct (class_metrics_of cm [0; 1; 2]) as [e|ms] eqn:Hms; [done|].
  cbn [bind_err]. intros H. injection H as <-. exists cm.
  split; [reflexivity|]. split; assumption.
Qed.

(** X12: on labels and predictions that are class indices or the ignore
    value, the evaluation raises nothing and its accuracy is the number of
    counted positions predicted correctly divided by the number of counted
    positions, a position being counted when neither its label nor its
    prediction is the ignore value; it is 0 when nothing is counted. *)
Theorem evaluate_accuracy_fraction (pairs : list (Z * Z)) :
  Forall plain_pair pairs ->
  exists res,
    evaluate_token_classification pairs = inr res /\
    (tally any pairs > 0 ->
     accuracy res
     = (inject_Z (tally correct pairs) / inject_Z (tally any pairs))%Q) /\
    (tally any pairs = 0 -> accuracy res = 0%Q).
Proof.
  intros Hplain.
  destruct (evaluate_total pairs) as [res Hres].
  { eapply Forall_impl; [exact Hplain|].
    intros tp [?|[?|[? ?]]]; unfold countable_pair; [tauto..|].
    right. right. lia. }
  exists res. split; [done|].
  destruct (evaluate_derive _ _ Hres) as (cm & Hcm & Hacc & _).
  destruct (count_pairs_sums _ _ Hplain Hcm) as (Hsum & Hdiag & _).
  unfold accuracy_of in Hacc. rewrite Hsum, Hdiag in Hacc.
  destruct (guarded_ratio (tally correct pairs) (tally any pairs))
    as (q & Hq & Hpos & Hzero).
  rewrite Hq in Hacc. injection Hacc as <-.
  split; [done|]. intros; apply Hzero; lia.
Qed.

(** X13: under the same condition, the precision of a class is the number
    of counted positions labelled and predicted as that class divided by
    the number predicted as it, and the recall is the same number divided
    by the number labelled as it; each is 0 when its divisor is 0. *)
Theorem evaluate_precision_recall_fraction (pairs : list (Z * Z)) :
  Forall plain_pair pairs ->
  exists res,
    evaluate_token_classification pairs = inr res /\
    (class_metrics res).*1 = [0; 1; 2] /\
    forall c m, (c, m) ∈ class_metrics res ->
      (tally (predicted c) pairs > 0 ->
       precision m = (inject_Z (tally (cell c c) pairs)
                      / inject_Z (tally (predicted c) pairs))%Q) /\
      (tally (predicted c) pairs = 0 -> precision m = 0%Q) /\
      (tally (actual c) pairs > 0 ->
       recall m = (inject_Z (tally (cell c c) pairs)
                   / inject_Z (tally (actual c) pairs))%Q) /\
      (tally (actual c) pairs = 0 -> recall m = 0%Q).
Proof.
  intros Hplain.
  destruct (evaluate_total pairs) as [res Hres].
  { eapply Forall_impl; [exact Hplain|].
    intros tp [?|[?|[? ?]]]; unfold countable_pair; [tauto..|].
    right. right. lia. }
  exists res. split; [done|].
  destruct (evaluate_derive _ _ Hres) as (cm & Hcm & _ & Hms).
  destruct (count_pairs_sums _ _ Hplain Hcm) as (_ & _ & Hclass).
  destruct (class_metric_of_spec cm 0) as (m0 & H0 & S0).
  destruct (class_metric_of_spec cm 1) as (m1 & H1 & S1).
  destruct (class_metric_of_spec cm 2) as (m2 & H2 & S2).
  cbn [class_metrics_of] in Hms. rewrite H0, H1, H2 in Hms. cbn [bind_err] in Hms.
  injection Hms as <-. split; [reflexivity|].
  assert (forall c m, c = 0 \/ c = 1 \/ c = 2 ->
            ((true_positives cm c + false_positives cm c > 0 ->
              precision m = (inject_Z (true_positives cm c)
                / inject_Z (true_positives cm c + false_positives cm c))%Q) /\
             (true_positives cm c + false_positives cm c = 0 -> precision m = 0%Q) /\
             (true_positives cm c + false_negatives cm c > 0 ->
              recall m = (inject_Z (true_positives cm c)
                / inject_Z (true_positives cm c + false_negatives cm c))%Q) /\
             (true_positives cm c + false_negatives cm c = 0 -> recall m = 0%Q) /\
             ((0 < precision m + recall m)%Q ->
              f1 m = (2 * precision m * recall m / (precision m + recall m))%Q) /\
             ((precision m + recall m == 0)%Q -> f1 m = 0%Q)) ->
            (tally (predicted c) pairs > 0 ->
             precision m = (inject_Z (tally (cell c c) pairs)
                            / inject_Z (tally (predicted c) pairs))%Q) /\
            (tally (predicted c) pairs = 0 -> precision m = 0%Q) /\
            (tally (actual c) pairs > 0 ->
             recall m = (inject_Z (tally (cell c c) pairs)
                         / inject_Z (tally (actual c) pairs))%Q) /\
            (tally (actual c) pairs = 0 -> recall m = 0%Q)) as Hconv.
  { intros c m Hc (Hp & Hp0 & Hr & Hr0 & _).
    destruct (Hclass c Hc) as (Htp & Hcol & Hrow).
    unfold false_positives, false_negatives in *.
    replace (true_positives cm c + (col_sum cm c - true_positives cm c))
      with (tally (predicted c) pairs) in * by lia.
    replace (true_positives cm c + (row_sum cm c - true_positives cm c))
      with (tally (actual c) pairs) in * by lia.
    rewrite Htp in *. done. }
  intros c m Hin.
  repeat (apply elem_of_cons in Hin as [Hin|Hin];
          [injection Hin as -> ->; apply Hconv; [lia | assumption]|]).
  by apply elem_of_nil in Hin.
Qed.

(** *** The order of the pairs *)

Lemma agree_refl (a : error + confusion) : agree a a.
Proof. by destruct a. Qed.

Lemma count_pair_error (cm cm' : confusion) (t p : Z) (e : error) :
  count_pair cm t p = inl e -> e = IndexError /\ count_pair cm' t p = inl IndexError.
Proof.
  unfold count_pair. destruct (negb _); [|done].
  destruct (tensor_index t), (tensor_index p); try done;
    intros H; by injection H as <-.
Qed.

Lemma count_pair_agree (c1 c2 : confusion) (t p : Z) :
  (forall i j, c1 i j = c2 i j) -> agree (count_pair c1 t p) (count_pair c2 t p).
Proof.
  intros H. unfold count_pair. destruct (negb _); [|exact H].
  destruct (tensor_index t), (tensor_index p); try done.
  intros i j. cbn. by rewrite H.
Qed.

Lemma count_pairs_agree (pairs : list (Z * Z)) (c1 c2 : confusion) :
  (forall i j, c1 i j = c2 i j) -> agree (count_pairs c1 pairs) (count_pairs c2 pairs).
Proof.
  revert c1 c2. induction pairs as [|[t p] pairs IH]; intros c1 c2 H; [exact H|].
  cbn [count_pairs].
  pose proof (count_pair_agree c1 c2 t p H) as Hstep.
  destruct (count_pair c1 t p), (count_pair c2 t p); try done.
  cbn [bind_err]. by apply IH.
Qed.

Lemma count_pair_swap (cm : confusion) (t1 p1 t2 p2 : Z) :
  agree (c1 <-! count_pair cm t1 p1; count_pair c1 t2 p2)
        (c2 <-! count_pair cm t2 p2; count_pair c2 t1 p1).
Proof.
  destruct (count_pair cm t1 p1) as [e1|c1] eqn:H1;
    destruct (count_pair cm t2 p2) as [e2|c2] eqn:H2; cbn [bind_err].
  - apply (count_pair_error _ cm) in H1 as [-> _].
    by apply (count_pair_error _ cm) in H2 as [-> _].
  - destruct (count_pair_error _ c2 _ _ _ H1) as [-> Hx]. by rewrite Hx.
  - destruct (count_pair_error _ c1 _ _ _ H2) as [-> Hx]. by rewrite Hx.
  - unfold count_pair in *.
    destruct (negb ((t1 =? -100) || (p1 =? -100)));
      destruct (negb ((t2 =? -100) || (p2 =? -100)));
      destruct (tensor_index t1), (tensor_index p1),
        (tensor_index t2), (tensor_index p2); try done;
      injection H1 as <-; injection H2 as <-; try done;
      intros i j; cbn;
      repeat match goal with |- context [?a && ?b] => destruct (a && b) end; lia.
Qed.

Lemma agree_trans (a b c : error + confusion) : agree a b -> agree b c -> agree a c.
Proof.
  destruct a, b, c; cbn; try done; [congruence|].
  intros H1 H2 i j. by rewrite H1.
Qed.

Lemma count_pairs_permutation (l l' : list (Z * Z)) :
  Permutation l l' -> forall cm, agree (count_pairs cm l) (count_pairs cm l').
Proof.
  induction 1 as [|[t p] l l' _ IH|[t1 p1] [t2 p2] l|l l' l'' _ IH1 _ IH2];
    intros cm.
  - apply agree_refl.
  - cbn [count_pairs]. destruct (count_pair cm t p); [done|apply IH].
  - cbn [count_pairs].
    pose proof (count_pair_swap cm t2 p2 t1 p1) as Hswap.
    destruct (count_pair cm t2 p2) as [e2|c2] eqn:H2;
      destruct (count_pair cm t1 p1) as [e1|c1] eqn:H1; cbn [bind_err] in *.
    + done.
    + by destruct (count_pair c1 t2 p2).
    + by destruct (count_pair c2 t1 p1).
    + destruct (count_pair c2 t1 p1) as [e|c21], (count_pair c1 t2 p2) as [e'|c12];
        try done. cbn [bind_err]. by apply count_pairs_agree.
  - eapply agree_trans; [apply IH1 | apply IH2].
Qed.

Lemma derive_agree (c1 c2 : confusion) :
  (forall i j, c1 i j = c2 i j) -> derive c1 = derive c2.
Proof.
  intros H. unfold derive, accuracy_of, class_metrics_of, class_metric_of,
    sum, diag_sum, row_sum, col_sum, true_positives, false_positives,
    false_negatives, row_sum, col_sum, true_positives.
  by rewrite !H.
Qed.

(** X14: the evaluation does not depend on the order in which the
    positions are visited; shuffling the data changes neither the metrics
    nor whether an [IndexError] is raised. *)
Theorem evaluate_permutation (pairs pairs' : list (Z * Z)) :
  Permutation pairs pairs' ->
  evaluate_token_classification pairs = evaluate_token_classification pairs'.
Proof.
  intros Hperm. unfold evaluate_token_classification.
  pose proof (count_pairs_permutation _ _ Hperm zeros) as Hagree.
  destruct (count_pairs zeros pairs) as [e|c1],
    (count_pairs zeros pairs') as [e'|c2]; cbn in Hagree; try done.
  - by subst.
  - cbn [bind_err]. by apply derive_agree.
Qed.

End MetricsExtras.

Lemma evaluate_accuracy_fraction_witness :
  Forall MetricsSpec.plain_pair [(0, 0); (1, 2); (-100, 1); (2, 2)] /\
  exists res,
    Metrics.evaluate_token_classification [(0, 0); (1, 2); (-100, 1); (2, 2)]
    = inr res /\
    Metrics.accuracy res = (inject_Z 2 / inject_Z 3)%Q.
Proof.
  assert (Forall MetricsSpec.plain_pair [(0, 0); (1, 2); (-100, 1); (2, 2)])
    as Hplain
    by (repeat constructor; unfold MetricsSpec.plain_pair; cbn; lia).
  split; [exact Hplain|].
  destruct (evaluate_accuracy_fraction _ Hplain) as (res & Hres & Hpos & _).
  exists res. split; [exact Hres|]. exact (Hpos eq_refl).
Defined.

Lemma evaluate_precision_recall_fraction_witness :
  Forall MetricsSpec.plain_pair [(0, 0); (1, 2); (-100, 1); (2, 2)] /\
  exists res,
    Metrics.evaluate_token_classification [(0, 0); (1, 2); (-100, 1); (2, 2)]
    = inr res /\
    forall m, (2, m) ∈ Metrics.class_metrics res ->
      Metrics.precision m = (inject_Z 1 / inject_Z 2)%Q /\
      Metrics.recall m = (inject_Z 1 / inject_Z 1)%Q.
Proof.
  assert (Forall MetricsSpec.plain_pair [(0, 0); (1, 2); (-100, 1); (2, 2)])
    as Hplain
    by (repeat constructor; unfold MetricsSpec.plain_pair; cbn; lia).
  split; [exact Hplain|].
  destruct (evaluate_precision_recall_fraction _ Hplain)
    as (res & Hres & _ & Hclass).
  exists res. split; [exact Hres|]. intros m Hin.
  destruct (Hclass 2 m Hin) as (Hp & _ & Hr & _).
  split; [exact (Hp eq_refl) | exact (Hr eq_refl)].
Defined.

Lemma evaluate_permutation_witness :
  Permutation [(0, 0); (1, 2); (2, -100)] [(1, 2); (0, 0); (2, -100)] /\
  Metrics.evaluate_token_classification [(0, 0); (1, 2); (2, -100)]
  = Metrics.evaluate_token_classification [(1, 2); (0, 0); (2, -100)].
Proof.
  assert (Permutation [(0, 0); (1, 2); (2, -100)] [(1, 2); (0, 0); (2, -100)])
    as Hperm by apply perm_swap.
  split; [exact Hperm | exact (evaluate_permutation _ _ Hperm)].
Defined.

(** ** More on the freeze cell and the training loop *)

Section TrainExtras.

Import Train.

Context (tensor batch : Type)
        (pretrained_weights : string -> Z -> list (string * component * tensor))
        (DataLoader : list example -> Z -> error + list batch)
        (forward_loss : model tensor -> batch -> float)
        (predict : model tensor -> batch -> list (Z * Z))
        (adamw_update : optimizer -> model tensor -> batch -> param tensor -> tensor).

Local Abbreviation loaded := (from_pretrained tensor pretrained_weights).
Local Abbreviation accuracy_on := (evaluate_accuracy tensor batch predict).
Local Abbreviation epoch_of :=
  (run_epoch tensor batch DataLoader forward_loss predict adamw_update).
Local Abbreviation epochs_of :=
  (run_epochs tensor batch DataLoader forward_loss predict adamw_update).
Local Abbreviation worker :=
  (train_loop_per_worker tensor batch pretrained_weights DataLoader
                         forward_loss predict adamw_update).
Local Abbreviation head_of :=
  (fun p : param tensor => component_eqb (owner tensor p) classifier).

(** *** The freeze cell *)

(** X15: the freeze cell changes nothing but the [requires_grad] flags:
    names, owners and values of all parameters stay as they were, a
    parameter requires a gradient afterwards exactly if it belongs to the
    classification head, whatever its flag was before, so the parameters
    that still require one are those of the head, in order; running the
    cell a second time changes nothing. *)
Theorem freeze_cell_only_head (m : model tensor) :
  map (pname tensor) (freeze_cell tensor m) = map (pname tensor) m /\
  map (owner tensor) (freeze_cell tensor m) = map (owner tensor) m /\
  map (data tensor) (freeze_cell tensor m) = map (data tensor) m /\
  map (requires_grad tensor) (freeze_cell tensor m) = map head_of m /\
  map (pname tensor) (trainable_parameters tensor (freeze_cell tensor m))
  = map (pname tensor) (List.filter head_of m) /\
  freeze_cell tensor (freeze_cell tensor m) = freeze_cell tensor m.
Proof.
  unfold freeze_cell, set_requires_grad, trainable_parameters.
  repeat split; induction m as [|[n [] g d] m IH]; cbn in *; congruence.
Qed.

Lemma freeze_cell_names (m : model tensor) :
  map (pname tensor) (freeze_cell tensor m) = map (pname tensor) m.
Proof.
  unfold freeze_cell, set_requires_grad.
  induction m as [|[n [] g d] m IH]; cbn in *; congruence.
Qed.

Lemma held_spec (opt : optimizer) (p : param tensor) :
  held tensor opt p = true -> In (pname tensor p) (opt_params opt).
Proof.
  unfold held. intros (x & Hin & Heq)%existsb_exists.
  apply String.eqb_eq in Heq. by subst.
Qed.

Lemma NoDup_map_elem_inj {A B : Type} (f : A -> B) (l : list A) (x y : A) :
  NoDup (map f l) -> In x l -> In y l -> f x = f y -> x = y.
Proof.
  induction l as [|a l IH]; [done|]. cbn [map].
  intros [Ha Hnd]%NoDup_cons [->|Hx] [->|Hy] Heq; try done.
  - exfalso. apply Ha. rewrite Heq. by apply list_elem_of_In, in_map.
  - exfalso. apply Ha. rewrite <- Heq. by apply list_elem_of_In, in_map.
  - by apply IH.
Qed.

(** X16: an optimizer built, as the training loop builds it, from the
    parameters that require a gradient, on a model the freeze cell has run
    on, never changes a base-encoder parameter: after a step every
    parameter of the base encoder is what it was.  Parameter names are
    distinct, as they are in a module's parameter table. *)
Theorem frozen_encoder_not_updated (m : model tensor) (lr : float)
    (total_steps : Z) (opt : optimizer) (b : batch) (i : nat)
    (p : param tensor) :
  NoDup (map (pname tensor) m) ->
  AdamW tensor (trainable_parameters tensor (freeze_cell tensor m)) lr total_steps
  = inr opt ->
  freeze_cell tensor m !! i = Some p ->
  owner tensor p = distilbert ->
  (optimizer_step tensor batch adamw_update opt (freeze_cell tensor m) b).1 !! i
  = Some p.
Proof.
  intros Hnd Hopt Hp Hown. apply optimizer_step_frame; [exact Hp|].
  destruct (held tensor opt p) eqn:Hheld; [exfalso|done].
  apply held_spec in Hheld.
  assert (opt_params opt
          = map (pname tensor)
                (trainable_parameters tensor (freeze_cell tensor m))) as Hparams.
  { unfold AdamW in Hopt.
    destruct (trainable_parameters tensor (freeze_cell tensor m)); [done|].
    by injection Hopt as <-. }
  rewrite Hparams in Hheld. apply in_map_iff in Hheld as (q & Hname & Hq).
  pose proof (freeze_cell_trainable _ _ _ (proj2 (list_elem_of_In _ _) Hq)) as Hhead.
  unfold trainable_parameters in Hq. apply filter_In in Hq as [Hq _].
  assert (q = p) as ->.
  { apply (NoDup_map_elem_inj (pname tensor) (freeze_cell tensor m));
      [by rewrite freeze_cell_names | exact Hq | | exact Hname].
    apply list_elem_of_In. by eapply list_elem_of_lookup_2. }
  congruence.
Qed.

(** *** Edge cases of the worker *)

Lemma setup_loaded (cfg : config) (examples : list example) (tl : list batch) :
  DataLoader examples (batch_size cfg) = inr tl ->
  pretrained_weights (model_name cfg) (num_labels cfg) <> [] ->
  exists opt,
    setup tensor batch pretrained_weights DataLoader cfg examples
    = inr (loaded (model_name cfg) (num_labels cfg), tl, opt).
Proof.
  intros Htl Hw. unfold setup. rewrite Htl, trainable_loaded. cbn [bind_err].
  unfold AdamW, from_pretrained.
  destruct (pretrained_weights (model_name cfg) (num_labels cfg)) as [|w ws];
    [done|].
  cbn [map bind_err]. eauto.
Qed.

(** X18: with [checkpoint_freq = 0] the rank-0 worker raises
    [ZeroDivisionError] at the checkpoint test of its first epoch, after
    training it and before any report, while a worker of another rank,
    which never evaluates the modulo, runs all its epochs and reports the
    loss alone in each. *)
Theorem worker_zero_checkpoint_freq (cfg : config)
    (train_batches val_batches : list (list example)) (tl : list batch) :
  checkpoint_freq cfg = 0 -> 0 < num_epochs cfg ->
  DataLoader (concat train_batches) (batch_size cfg) = inr tl -> tl <> [] ->
  pretrained_weights (model_name cfg) (num_labels cfg) <> [] ->
  (forall m b, Forall Metrics.countable_pair (predict m b)) ->
  worker 0 cfg (Some train_batches) (Some val_batches)
  = ([], Some ZeroDivisionError) /\
  forall rank, rank <> 0 ->
    exists reports,
      worker rank cfg (Some train_batches) (Some val_batches) = (reports, None) /\
      length reports = Z.to_nat (num_epochs cfg) /\
      Forall (fun r => exists loss, r = ReportLoss loss) reports.
Proof.
  intros Hfreq Hpos Htl Hne Hw Hpred. split.
  - unfold train_loop_per_worker.
    destruct (setup_loaded cfg _ _ Htl Hw) as [opt ->].
    destruct (Z.to_nat (num_epochs cfg)) as [|k] eqn:Hk; [lia|].
    cbn [seq run_epochs]. unfold run_epoch.
    destruct (fold_left _ tl _) as [[m1 opt1] epoch_loss].
    destruct (accuracy_on_total _ _ _ Hpred m1 tl) as [q ->]. cbn [bind_err].
    destruct tl as [|b tl]; [done|]. cbn [length average_loss bind_err].
    rewrite Hfreq. reflexivity.
  - intros rank Hrank.
    assert (exists reports,
              worker rank cfg (Some train_batches) (Some val_batches)
              = (reports, None) /\
              length reports = Z.to_nat (num_epochs cfg))
      as (reports & Hrun & Hlen).
    { unfold train_loop_per_worker.
      destruct (setup_loaded cfg _ _ Htl Hw) as [opt ->].
      edestruct (run_epochs_complete tensor batch DataLoader forward_loss
                   predict adamw_update Hpred rank cfg tl (concat val_batches)
                   (seq 0 (Z.to_nat (num_epochs cfg))))
        as (new & Hrun & Hlen); [exact Hne | done |].
      exists new. split; [exact Hrun|]. by rewrite Hlen, length_seq. }
    exists reports. split; [exact Hrun|]. split; [exact Hlen|].
    apply Forall_lookup_2. intros e r He.
    assert ((worker rank cfg (Some train_batches) (Some val_batches)).1 !! e
            = Some r) as Hr by (by rewrite Hrun).
    destruct (worker_reports _ _ _ _ _ _ _ _ _ _ _ _ _ Hr)
      as (Hck & Hloss & _).
    exists (report_loss r). apply Hloss.
    destruct (has_checkpoint r); [|done].
    destruct Hck as [Hck _]. by destruct (Hck eq_refl).
Qed.

(** *** The reports of a worker *)

Lemma run_epochs_count (rank : Z) (cfg : config) (tl : list batch)
    (val_examples : list example) (epochs : list nat) (m : model tensor)
    (opt : optimizer) (reports : list report) :
  let o := epochs_of rank cfg tl val_examples epochs m opt reports in
  (length o.1 <= length reports + length epochs)%nat /\
  (o.2 = None -> length o.1 = (length reports + length epochs)%nat) /\
  (o.2 <> None -> (length o.1 < length reports + length epochs)%nat).
Proof.
  revert m opt reports.
  induction epochs as [|epoch epochs IH]; intros m opt reports;
    cbn [run_epochs length].
  - cbn. repeat split; [lia..|done].
  - destruct (epoch_of rank cfg tl val_examples epoch m opt)
      as [e|[[m' opt'] r]].
    + cbn. repeat split; [lia|done|lia].
    + specialize (IH m' opt' (reports ++ [r])). cbn zeta in IH.
      rewrite length_app in IH. cbn [length] in IH. cbn zeta.
      destruct IH as (IH1 & IH2 & IH3).
      split; [lia|]. split; [intros H; rewrite IH2; [lia|done]|].
      intros H. specialize (IH3 H). lia.
Qed.

Lemma worker_report_bound (rank : Z) (cfg : config)
    (train_data val_data : option (list (list example))) :
  (length (worker rank cfg train_data val_data).1
   <= Z.to_nat (num_epochs cfg))%nat.
Proof.
  unfold train_loop_per_worker.
  destruct train_data as [train_batches|], val_data as [val_batches|];
    try (cbn; lia).
  destruct (setup _ _ _ _ cfg (concat train_batches)) as [err|[[m tl] opt]];
    [cbn; lia|].
  pose proof (run_epochs_count rank cfg tl (concat val_batches)
                (seq 0 (Z.to_nat (num_epochs cfg))) m opt []) as Hcount.
  cbn zeta in Hcount. rewrite length_seq in Hcount. cbn [length] in Hcount.
  lia.
Qed.

(** X19: a worker reports at most once per epoch of its config, and
    exactly once per epoch when it ends without an exception; a worker
    that has made a report and then raised an exception has reported
    fewer times than it had epochs to run. *)
Theorem worker_report_count (rank : Z) (cfg : config)
    (train_data val_data : option (list (list example))) :
  let o := worker rank cfg train_data val_data in
  (length o.1 <= Z.to_nat (num_epochs cfg))%nat /\
  (o.2 = None -> length o.1 = Z.to_nat (num_epochs cfg)) /\
  (o.1 <> [] -> o.2 <> None -> (length o.1 < Z.to_nat (num_epochs cfg))%nat).
Proof.
  cbn zeta. unfold train_loop_per_worker.
  destruct train_data as [train_batches|], val_data as [val_batches|];
    try (cbn; repeat split; [lia|done|done]).
  destruct (setup _ _ _ _ cfg (concat train_batches)) as [err|[[m tl] opt]].
  - cbn. repeat split; [lia|done|done].
  - pose proof (run_epochs_count rank cfg tl (concat val_batches)
                  (seq 0 (Z.to_nat (num_epochs cfg))) m opt []) as Hcount.
    cbn zeta in Hcount. rewrite length_seq in Hcount. cbn [length] in Hcount.
    destruct Hcount as (H1 & H2 & H3). repeat split; [lia|auto|auto].
Qed.

Lemma app_prefix_inj (p a b : string) : p +:+ a = p +:+ b -> a = b.
Proof.
  induction p as [|c p IH]; [done|]. rewrite !append_cons.
  intros H. injection H as H. by apply IH.
Qed.

Lemma checkpoint_path_inj (dir : string) (e1 e2 : nat) :
  checkpoint_path dir e1 = checkpoint_path dir e2 -> e1 = e2.
Proof.
  unfold checkpoint_path.
  intros H%app_prefix_inj%app_prefix_inj%app_prefix_inj%(inj pretty). lia.
Qed.

(** X20: the checkpoints a worker reports in two different epochs are in
    different directories, so no checkpoint of a run overwrites an earlier
    one. *)
Theorem worker_checkpoint_paths (rank : Z) (cfg : config)
    (train_data val_data : option (list (list example)))
    (e1 e2 : nat) (r1 r2 : report) (path1 path2 : string) :
  (worker rank cfg train_data val_data).1 !! e1 = Some r1 ->
  (worker rank cfg train_data val_data).1 !! e2 = Some r2 ->
  e1 <> e2 ->
  report_checkpoint r1 = Some path1 -> report_checkpoint r2 = Some path2 ->
  path1 <> path2.
Proof.
  intros H1 H2 Hne Hp1 Hp2 Heq.
  destruct (worker_reports _ _ _ _ _ _ _ _ _ _ _ _ _ H1) as (_ & _ & Hpath1).
  destruct (worker_reports _ _ _ _ _ _ _ _ _ _ _ _ _ H2) as (_ & _ & Hpath2).
  assert (has_checkpoint r1 = true) as Hc1 by (by destruct r1).
  assert (has_checkpoint r2 = true) as Hc2 by (by destruct r2).
  rewrite Hp1 in Hpath1. rewrite Hp2 in Hpath2.
  specialize (Hpath1 Hc1). specialize (Hpath2 Hc2).
  injection Hpath1 as Hpath1. injection Hpath2 as Hpath2.
  apply Hne, (checkpoint_path_inj (checkpoint_dir cfg)). congruence.
Qed.

(** *** Validation data and the other ranks *)

Lemma run_epoch_other_rank (rank : Z) (cfg : config) (tl : list batch)
    (val1 val2 : list example) (epoch : nat) (m : model tensor)
    (opt : optimizer) :
  rank <> 0 ->
  epoch_of rank cfg tl val1 epoch m opt = epoch_of rank cfg tl val2 epoch m opt.
Proof.
  intros Hrank. unfold run_epoch.
  destruct (fold_left _ tl _) as [[m1 opt1] epoch_loss].
  destruct (accuracy_on m1 tl) as [e|train_accuracy]; [done|]. cbn [bind_err].
  destruct (average_loss epoch_loss (length tl)) as [e|avg_loss]; [done|].
  cbn [bind_err]. unfold checkpoint_due.
  destruct (Z.eqb_spec rank 0); [done|]. reflexivity.
Qed.

(** X21: a worker whose rank is not 0 never touches the validation data:
    whatever the validation shard holds, it makes the same reports and
    ends the same way. *)
Theorem worker_other_rank_ignores_validation (rank : Z) (cfg : config)
    (train_batches val1 val2 : list (list example)) :
  rank <> 0 ->
  worker rank cfg (Some train_batches) (Some val1)
  = worker rank cfg (Some train_batches) (Some val2).
Proof.
  intros Hrank. unfold train_loop_per_worker.
  destruct (setup _ _ _ _ cfg (concat train_batches)) as [err|[[m tl] opt]];
    [done|].
  generalize (@nil report) as reports. revert m opt.
  induction (seq 0 (Z.to_nat (num_epochs cfg))) as [|epoch epochs IH];
    intros m opt reports; cbn [run_epochs]; [done|].
  rewrite (run_epoch_other_rank rank cfg tl (concat val1) (concat val2)) by done.
  destruct (epoch_of rank cfg tl (concat val2) epoch m opt)
    as [e|[[m' opt'] r]]; [done|].
  apply IH.
Qed.

End TrainExtras.

(** ** The further properties on the concrete model *)

(** The freeze cell on the concrete model, then one step of an optimizer
    built from what still requires a gradient. *)
Lemma frozen_encoder_not_updated_witness :
  (Train.optimizer_step Z example ToyTrain.adamw_update
     (Train.Optimizer ["classifier.weight"] 0x1p-15%float 4 0)
     (Train.freeze_cell Z
        (Train.from_pretrained Z ToyTrain.pretrained_weights
                               "distilbert-base-uncased" 3))
     ToyTrain.ex).1 !! 0%nat
  = Some (Train.Param Z "distilbert.embeddings.word_embeddings.weight"
                      Train.distilbert false 1).
Proof.
  apply (frozen_encoder_not_updated Z example ToyTrain.adamw_update
           (Train.from_pretrained Z ToyTrain.pretrained_weights
                                  "distilbert-base-uncased" 3)
           0x1p-15%float 4).
  - apply (bool_decide_unpack _). vm_compute. exact I.
  - reflexivity.
  - reflexivity.
  - reflexivity.
Defined.

(** The concrete config with a checkpoint frequency of 0. *)
Lemma worker_zero_checkpoint_freq_witness :
  ToyTrain.train_loop_per_worker 0
    (Train.Config "distilbert-base-uncased" 3 2 10 0x1p-15%float "checkpoints" 0)
    (Some [[ToyTrain.ex; ToyTrain.ex]]) (Some [[ToyTrain.ex]])
  = ([], Some ZeroDivisionError) /\
  exists reports,
    ToyTrain.train_loop_per_worker 1
      (Train.Config "distilbert-base-uncased" 3 2 10 0x1p-15%float "checkpoints" 0)
      (Some [[ToyTrain.ex; ToyTrain.ex]]) (Some [[ToyTrain.ex]])
    = (reports, None) /\
    length reports = 2%nat.
Proof.
  assert (forall m b, Forall Metrics.countable_pair (ToyTrain.predict m b))
    as Hpred.
  { intros m b. constructor; [|constructor]. right. right. simpl. lia. }
  destruct (worker_zero_checkpoint_freq Z example ToyTrain.pretrained_weights
              ToyTrain.DataLoader ToyTrain.forward_loss ToyTrain.predict
              ToyTrain.adamw_update
              (Train.Config "distilbert-base-uncased" 3 2 10 0x1p-15%float
                            "checkpoints" 0)
              [[ToyTrain.ex; ToyTrain.ex]] [[ToyTrain.ex]]
              [ToyTrain.ex; ToyTrain.ex])
    as [Hzero Hother];
    [reflexivity | reflexivity | reflexivity | discriminate | discriminate
    | exact Hpred |].
  split; [exact Hzero|].
  destruct (Hother 1) as (reports & Hrun & Hlen & _); [discriminate|].
  exists reports. split; [exact Hrun | exact Hlen].
Defined.

(** The two checkpoints of the rank-0 worker of the concrete model. *)
Lemma worker_checkpoint_paths_witness :
  exists r1 r2,
    (ToyTrain.train_loop_per_worker 0 ToyTrain.cfg
       ToyTrain.train_data ToyTrain.val_data).1 !! 0%nat = Some r1 /\
    (ToyTrain.train_loop_per_worker 0 ToyTrain.cfg
       ToyTrain.train_data ToyTrain.val_data).1 !! 1%nat = Some r2 /\
    Train.report_checkpoint r1 = Some "checkpoints/epoch_1" /\
    Train.report_checkpoint r2 = Some "checkpoints/epoch_2" /\
    "checkpoints/epoch_1" <> "checkpoints/epoch_2".
Proof.
  assert (exists r1,
            (ToyTrain.train_loop_per_worker 0 ToyTrain.cfg
               ToyTrain.train_data ToyTrain.val_data).1 !! 0%nat = Some r1 /\
            Train.report_checkpoint r1 = Some "checkpoints/epoch_1")
    as (r1 & H1 & Hp1)
    by (eexists; split; vm_compute; reflexivity).
  assert (exists r2,
            (ToyTrain.train_loop_per_worker 0 ToyTrain.cfg
               ToyTrain.train_data ToyTrain.val_data).1 !! 1%nat = Some r2 /\
            Train.report_checkpoint r2 = Some "checkpoints/epoch_2")
    as (r2 & H2 & Hp2)
    by (eexists; split; vm_compute; reflexivity).
  exists r1, r2.
  split; [exact H1|]. split; [exact H2|]. split; [exact Hp1|].
  split; [exact Hp2|].
  apply (worker_checkpoint_paths Z example ToyTrain.pretrained_weights
           ToyTrain.DataLoader ToyTrain.forward_loss ToyTrain.predict
           ToyTrain.adamw_update 0 ToyTrain.cfg ToyTrain.train_data
           ToyTrain.val_data 0%nat 1%nat r1 r2 _ _ H1 H2);
    [discriminate | exact Hp1 | exact Hp2].
Defined.

(** The rank-1 worker of the concrete model, with and without validation
    examples. *)
Lemma worker_other_rank_ignores_validation_witness :
  1 <> 0 /\
  ToyTrain.train_loop_per_worker 1 ToyTrain.cfg
    (Some [[ToyTrain.ex; ToyTrain.ex]]) (Some [[ToyTrain.ex]])
  = ToyTrain.train_loop_per_worker 1 ToyTrain.cfg
      (Some [[ToyTrain.ex; ToyTrain.ex]]) (Some []).
Proof.
  assert (1 <> 0) as Hrank by discriminate.
  split; [exact Hrank|].
  exact (worker_other_rank_ignores_validation Z example
           ToyTrain.pretrained_weights ToyTrain.DataLoader ToyTrain.forward_loss
           ToyTrain.predict ToyTrain.adamw_update 1 ToyTrain.cfg
           [[ToyTrain.ex; ToyTrain.ex]] [[ToyTrain.ex]] [] Hrank).
Defined.
